(** * triko-services: the storage service and the session service

    A shallow embedding of [src/storage-service/index.js] and
    [src/session-service/index.js], and the properties of their record and
    store operations.

    - JavaScript values are an inductive type; objects are finite maps from
      property names to values, arrays are lists that may carry extra named
      properties.
    - The key-value backend (AsyncStorage) is a finite map from keys to JSON
      documents.  The text under a key is represented by the document it
      denotes: [JSON.stringify] builds the document of a value,
      [JSON.parse] reads a document back as a value.
    - An [async] function is a function from the backend to an outcome and
      the backend it leaves behind: the promise is fulfilled ([Ok]) or
      rejected ([Err]); writes made before a rejection stay.  A
      [try { ... } catch (e) { throw e; }] block rethrows what it caught
      and is the block itself.
    - The backend is reliable: its calls are not rejected for I/O
      reasons. *)

From stdpp Require Import gmap strings list fin_maps pretty.

Set Warnings "-register-all".
Local Open Scope string_scope.
Local Open Scope list_scope.

(** ** JavaScript values *)

(** Numbers: the service never computes with them, it only compares,
    tests truthiness and serialises.  Finite numbers are the integers. *)
Inductive jsnum :=
| NaN
| Infinity (negative : bool)
| Int (z : Z).

Inductive jsval :=
| VUndef
| VNull
| VBool (b : bool)
| VNum (n : jsnum)
| VStr (s : string)
| VArr (elems : list jsval) (props : gmap string jsval)
| VObj (fields : gmap string jsval).

(** JSON documents, the contents of the backend. *)
Inductive json :=
| JNull
| JBool (b : bool)
| JNum (z : Z)
| JStr (s : string)
| JArr (elems : list json)
| JObj (members : gmap string json).

(** What a JavaScript computation can throw, and what a promise can be
    rejected with. *)
Inductive error :=
| TypeError
| SyntaxError
| ErrorObject (message : string)   (* throw new Error(message) *)
| ThrownString (message : string)  (* throw 'message' *)
| BackendError.

Inductive outcome (A : Type) :=
| Ok (a : A)
| Err (e : error).
Arguments Ok {A} a.
Arguments Err {A} e.

#[global] Instance outcome_ret : MRet outcome := fun A a => Ok a.
#[global] Instance outcome_bind : MBind outcome := fun A B f c =>
  match c with
  | Ok a => f a
  | Err e => Err e
  end.

(** *** Primitive operations *)

Definition num_eq (a b : jsnum) : bool :=
  match a, b with
  | Int x, Int y => bool_decide (x = y)
  | Infinity x, Infinity y => bool_decide (x = y)
  | _, _ => false
  end.

(** [a === b].  Objects and arrays compare by reference.  Every comparison
    in the services is between a value parsed from the backend and a value
    supplied by the caller, which never share a reference. *)
Definition strict_eq (a b : jsval) : bool :=
  match a, b with
  | VUndef, VUndef => true
  | VNull, VNull => true
  | VBool x, VBool y => bool_decide (x = y)
  | VNum x, VNum y => num_eq x y
  | VStr x, VStr y => bool_decide (x = y)
  | _, _ => false
  end.

Definition truthy (v : jsval) : bool :=
  match v with
  | VUndef | VNull | VBool false | VNum NaN | VNum (Int 0) | VStr "" => false
  | _ => true
  end.

(** [a || b] *)
Definition or_else (a b : jsval) : jsval := if truthy a then a else b.

(** A parameter with a default, [(x = d) => ...]: the default replaces
    [undefined] only. *)
Definition default_arg (x d : jsval) : jsval :=
  match x with
  | VUndef => d
  | _ => x
  end.

Definition empty_array : jsval := VArr [] ∅.
Definition empty_object : jsval := VObj ∅.

(** The index an array (or string) of length [len] has under the property
    name [key], if any: the name is the decimal numeral of the index. *)
Definition index_of (key : string) (len : nat) : option nat :=
  fst <$> list_find (fun i : nat => pretty i = key) (seq 0 len).

Definition char_at (s : string) (i : nat) : jsval :=
  match String.get i s with
  | Some c => VStr (String c "")
  | None => VUndef
  end.

(** [v[key]], reading own properties (members inherited from the built-in
    prototypes are not modelled).  Where [v] has no property of its own
    under a name such as [constructor] or [toString], JavaScript yields
    the inherited function or object and this definition [undefined]; the
    properties that read a caller's key say so in a hypothesis (see
    [requires_values] and [Object_prototype_names] below). *)
Definition get_prop (v : jsval) (key : string) : outcome jsval :=
  match v with
  | VUndef | VNull => Err TypeError
  | VBool _ | VNum _ => Ok VUndef
  | VStr s =>
      if bool_decide (key = "length") then Ok (VNum (Int (Z.of_nat (String.length s))))
      else match index_of key (String.length s) with
           | Some i => Ok (char_at s i)
           | None => Ok VUndef
           end
  | VArr elems props =>
      if bool_decide (key = "length") then Ok (VNum (Int (Z.of_nat (length elems))))
      else match index_of key (length elems) with
           | Some i => Ok (default VUndef (elems !! i))
           | None => Ok (default VUndef (props !! key))
           end
  | VObj fields => Ok (default VUndef (fields !! key))
  end.

(** [target[name] = v] in strict mode, for a [name] that is neither an
    array index nor [length] (the services assign [ui_code] and [null]). *)
Definition put_field (target : jsval) (name : string) (v : jsval) : outcome jsval :=
  match target with
  | VObj fields => Ok (VObj (<[name := v]> fields))
  | VArr elems props => Ok (VArr elems (<[name := v]> props))
  | _ => Err TypeError
  end.

(** The own enumerable properties of a value. *)
Definition indexed {A} (f : A → jsval) (l : list A) : gmap string jsval :=
  list_to_map (imap (fun i x => (pretty i, f x)) l).

Definition own_props (v : jsval) : gmap string jsval :=
  match v with
  | VObj fields => fields
  | VArr elems props => indexed id elems ∪ props
  | VStr s => indexed (fun c => VStr (String c "")) (String.list_ascii_of_string s)
  | _ => ∅
  end.

(** [Object.keys(v)].  The names come in the order of the finite map; the
    services only loop over them to form a conjunction. *)
Definition Object_keys (v : jsval) : outcome (list string) :=
  match v with
  | VUndef | VNull => Err TypeError
  | _ => Ok (map_to_list (own_props v)).*1
  end.

(** [{...a, ...b}] *)
Definition spread (a b : jsval) : jsval := VObj (own_props b ∪ own_props a).

(** [[...v]] *)
Definition spread_iterable (v : jsval) : outcome (list jsval) :=
  match v with
  | VArr elems _ => Ok elems
  | VStr s => Ok (map (fun c => VStr (String c "")) (String.list_ascii_of_string s))
  | _ => Err TypeError
  end.

Definition Array_isArray (v : jsval) : bool :=
  match v with
  | VArr _ _ => true
  | _ => false
  end.

(** [v.push(x)]: only arrays have the method. *)
Definition Array_push (v x : jsval) : outcome jsval :=
  match v with
  | VArr elems props => Ok (VArr (elems ++ [x]) props)
  | _ => Err TypeError
  end.

(** The callback-driven array methods; the callback may throw. *)
Fixpoint filter_elems (keep : jsval → outcome bool) (l : list jsval) : outcome (list jsval) :=
  match l with
  | [] => Ok []
  | x :: rest =>
      b ← keep x;
      kept ← filter_elems keep rest;
      Ok (if b : bool then x :: kept else kept)
  end.

Fixpoint find_elem (test : jsval → outcome bool) (i : nat) (l : list jsval)
  : outcome (option (nat * jsval)) :=
  match l with
  | [] => Ok None
  | x :: rest =>
      b ← test x;
      if b : bool then Ok (Some (i, x)) else find_elem test (S i) rest
  end.

(** [v.filter(keep)] *)
Definition Array_filter (v : jsval) (keep : jsval → outcome bool) : outcome jsval :=
  match v with
  | VArr elems _ => kept ← filter_elems keep elems; Ok (VArr kept ∅)
  | _ => Err TypeError
  end.

(** [keys.forEach(body)] over an accumulator the body assigns to. *)
Fixpoint forEach {A} (body : A → string → outcome A) (acc : A) (keys : list string) : outcome A :=
  match keys with
  | [] => Ok acc
  | key :: rest => acc' ← body acc key; forEach body acc' rest
  end.

(** *** JSON *)

Definition is_undefined (v : jsval) : bool :=
  match v with
  | VUndef => true
  | _ => false
  end.

(** The document of a value: members holding [undefined] are left out of
    an object, [undefined] and the non-finite numbers become [null]
    elsewhere, the named properties of an array are dropped. *)
Fixpoint to_json (v : jsval) : json :=
  match v with
  | VUndef | VNull => JNull
  | VBool b => JBool b
  | VNum (Int z) => JNum z
  | VNum _ => JNull
  | VStr s => JStr s
  | VArr elems _ => JArr (to_json <$> elems)
  | VObj fields =>
      JObj (omap (fun x => if is_undefined x then None else Some (to_json x)) fields)
  end.

Fixpoint from_json (j : json) : jsval :=
  match j with
  | JNull => VNull
  | JBool b => VBool b
  | JNum z => VNum (Int z)
  | JStr s => VStr s
  | JArr elems => VArr (from_json <$> elems) ∅
  | JObj members => VObj (from_json <$> members)
  end.

(** [JSON.stringify(v)]: [undefined] has no document. *)
Definition JSON_stringify (v : jsval) : option json :=
  match v with
  | VUndef => None
  | _ => Some (to_json v)
  end.

(** What the backend hands back: a stored text, [null], or nothing. *)
Inductive reply :=
| Text (document : json)
| Null
| Undefined.

(** [JSON.parse(r)]: the argument is converted to a string first, so
    [null] parses as the document [null] and [undefined] is a syntax
    error. *)
Definition JSON_parse (r : reply) : outcome jsval :=
  match r with
  | Text document => Ok (from_json document)
  | Null => Ok VNull
  | Undefined => Err SyntaxError
  end.

(** A stored text is a JSON document, never the empty string. *)
Definition reply_truthy (r : reply) : bool :=
  match r with
  | Text _ => true
  | _ => false
  end.

(** *** Property updates on stored values *)

(** [target[key] = v] in strict mode, for any [key].  A value without
    properties of its own throws; an object gets or replaces the field.
    [None] marks the updates the value model does not represent: the key
    [__proto__], which is an accessor of the built-in prototype, and
    element or [length] updates of arrays, which can leave holes. *)
Definition assign (target : jsval) (key : string) (v : jsval) : option (outcome jsval) :=
  match target with
  | VUndef | VNull => Some (Err TypeError)
  | _ =>
      if bool_decide (key = "__proto__") then None
      else match target with
           | VObj fields => Some (Ok (VObj (<[key := v]> fields)))
           | VArr _ _ => None
           | _ => Some (Err TypeError)
           end
  end.

(** [delete target[key]] in strict mode: own properties of an object are
    removed, the characters and the [length] of a string cannot be, the
    other primitives have nothing to remove.  [None] for arrays, as in
    [assign]. *)
Definition delete_prop (target : jsval) (key : string) : option (outcome jsval) :=
  match target with
  | VUndef | VNull => Some (Err TypeError)
  | VBool _ | VNum _ => Some (Ok target)
  | VStr s =>
      if bool_decide (key = "length") then Some (Err TypeError)
      else match index_of key (String.length s) with
           | Some _ => Some (Err TypeError)
           | None => Some (Ok target)
           end
  | VArr _ _ => None
  | VObj fields => Some (Ok (VObj (delete key fields)))
  end.

(** [const [first] = v]: the first value the iterator of [v] yields, or
    [undefined]. *)
Definition first_of (v : jsval) : outcome jsval :=
  elems ← spread_iterable v;
  Ok (default VUndef (head elems)).

(** ** The uuid generator *)

(** [uuid()] of the [uuidv4] package: sixteen random bytes, the version
    nibble set to 4 and the variant bits to 10, printed in lower-case
    hexadecimal in groups of 4, 2, 2, 2 and 6 bytes.  The random bytes a
    call draws are its [entropy]. *)
Definition entropy := nat → N.

Definition hex_digit (n : N) : Ascii.ascii :=
  default (Ascii.ascii_of_nat 48) (String.list_ascii_of_string "0123456789abcdef" !! N.to_nat n).

Definition hex_byte (b : N) : string :=
  String (hex_digit (b / 16)) (String (hex_digit (b mod 16)) "").

Definition uuid_byte (rnds : entropy) (i : nat) : N :=
  let b := (rnds i mod 256)%N in
  if bool_decide (i = 6%nat) then N.lor (N.land b 15) 64
  else if bool_decide (i = 8%nat) then N.lor (N.land b 63) 128
  else b.

Definition hex_group (rnds : entropy) (positions : list nat) : string :=
  foldr (fun i s => hex_byte (uuid_byte rnds i) +:+ s) "" positions.

Definition uuid (rnds : entropy) : string :=
  hex_group rnds [0; 1; 2; 3] +:+ "-" +:+ hex_group rnds [4; 5] +:+ "-"
  +:+ hex_group rnds [6; 7] +:+ "-" +:+ hex_group rnds [8; 9] +:+ "-"
  +:+ hex_group rnds [10; 11; 12; 13; 14; 15].

(** ** The backend *)

(** The contents of AsyncStorage. *)
Abbreviation backend := (gmap string json).

(** An [async] computation. *)
Definition async (A : Type) : Type := backend → outcome A * backend.

#[global] Instance async_ret : MRet async := fun A a b => (Ok a, b).
#[global] Instance async_bind : MBind async := fun A B f c b =>
  match c b with
  | (Ok a, b') => f a b'
  | (Err e, b') => (Err e, b')
  end.

(** A synchronous step inside an [async] function. *)
Definition sync {A} (c : outcome A) : async A := fun b => (c, b).

Definition throw {A} (e : error) : async A := fun b => (Err e, b).

(** [AsyncStorage.getItem(key)] resolves with the stored text, or with
    [null] when the key is absent. *)
Definition AsyncStorage_getItem (key : string) : async reply := fun b =>
  (Ok (match b !! key with
       | Some document => Text document
       | None => Null
       end), b).

(** [AsyncStorage.removeItem(key)] *)
Definition AsyncStorage_removeItem (key : string) : async reply := fun b =>
  (Ok Null, delete key b).

(** [AsyncStorage.getAllKeys()] resolves with the keys in use. *)
Definition AsyncStorage_getAllKeys : async (list string) := fun b =>
  (Ok (map_to_list b).*1, b).

(** An [async] computation that may leave the value model (see
    [assign]): [None] when it does. *)
Definition partial (A : Type) : Type := backend → option (outcome A * backend).

#[global] Instance partial_ret : MRet partial := fun A a b => Some (Ok a, b).
#[global] Instance partial_bind : MBind partial := fun A B f c b =>
  match c b with
  | Some (Ok a, b') => f a b'
  | Some (Err e, b') => Some (Err e, b')
  | None => None
  end.

(** An [async] call inside such a computation. *)
Definition await {A} (c : async A) : partial A := fun b => Some (c b).

(** A property update inside such a computation. *)
Definition update {A} (c : option (outcome A)) : partial A := fun b =>
  match c with
  | Some r => Some (r, b)
  | None => None
  end.

(** ** StorageService *)

Module StorageService.
Section Service.

(** What the promise of [AsyncStorage.setItem] resolves with.  The
    contract only fixes that the text is stored; the service reads the
    resolved value in [initStore] and [setStore]. *)
Variable setItem_reply : reply.

(** [AsyncStorage.setItem(key, value)]: a value that is not a string is
    rejected. *)
Definition AsyncStorage_setItem (key : string) (value : option json) : async reply :=
  fun b =>
    match value with
    | Some document => (Ok setItem_reply, <[key := document]> b)
    | None => (Err BackendError, b)
    end.

Definition ENTITY_PREFIX : string := "entity".
Definition STORE_PREFIX : string := "store".

Definition getEntityName (entityName : string) (isStore : bool) : string :=
  (if isStore then STORE_PREFIX else ENTITY_PREFIX) +:+ "_" +:+ entityName.

Definition getStore (entity : string) : async jsval :=
  let entityName := getEntityName entity true in
  store ← AsyncStorage_getItem entityName;
  if reply_truthy store then sync (JSON_parse store)
  else mret (VBool false).

Definition initStore (entity : string) (defaultValue : jsval) : async jsval :=
  let defaultValue := default_arg defaultValue empty_object in
  let entityName := getEntityName entity true in
  store ← AsyncStorage_setItem entityName (JSON_stringify defaultValue);
  sync (JSON_parse store).

Definition setStore (entity : string) (values : jsval) : async jsval :=
  let values := default_arg values empty_object in
  let entityName := getEntityName entity true in
  store ← AsyncStorage_setItem entityName (JSON_stringify values);
  sync (JSON_parse store).

Definition removeStore (entity : string) : async reply :=
  let entityName := getEntityName entity true in
  AsyncStorage_removeItem entityName.

(** The callback of [filter] in [filterData]: [isValid] starts true and
    every key whose values differ clears it. *)
Definition record_matches (criteria : jsval) (criteriaKeys : list string)
    (record : jsval) : outcome bool :=
  forEach (fun isValid key =>
             mine ← get_prop record key;
             wanted ← get_prop criteria key;
             Ok (if negb (strict_eq mine wanted) then false else isValid))
          true criteriaKeys.

Definition filterData (data criteria : jsval) : outcome jsval :=
  let data := default_arg data empty_array in
  let criteria := default_arg criteria (VBool false) in
  criteriaKeys ← Object_keys criteria;
  if negb (truthy (VArr (VStr <$> criteriaKeys) ∅)) then Ok data
  else
    resultData ← spread_iterable data;
    resultData ← filter_elems (record_matches criteria criteriaKeys) resultData;
    Ok (VArr resultData ∅).

Definition getData (entityName : string) (criteria : jsval) : async jsval :=
  let criteria := default_arg criteria (VBool false) in
  let storageName := getEntityName entityName false in
  data ← AsyncStorage_getItem storageName;
  if negb (strict_eq criteria (VBool false)) then
    parsed ← sync (JSON_parse data);
    sync (filterData parsed criteria)
  else sync (JSON_parse data).

Definition getAll (entity : string) : async jsval :=
  records ← getData entity VUndef;
  if Array_isArray records then mret records
  else mret (VBool false).

Definition persistData (entity : string) (data : jsval) : async jsval :=
  let data := default_arg data empty_object in
  _ ← AsyncStorage_setItem (getEntityName entity false) (JSON_stringify data);
  mret (VBool true).

(** [addRecord]; [rnds] is what the call to [uuid()] draws. *)
Definition addRecord (rnds : entropy) (entity : string) (data : jsval) : async jsval :=
  let data := default_arg data empty_object in
  data ← sync (put_field data "ui_code" (VStr (uuid rnds)));
  stored ← getData entity VUndef;
  let records := or_else stored empty_array in
  records ← sync (Array_push records data);
  _ ← persistData entity records;
  mret data.

Definition getById (entity : string) (id : jsval) : async jsval :=
  response ← getData entity (VObj {[ "ui_code" := id ]});
  match response with
  | VArr (record :: _) _ => mret record
  | _ => mret (VBool false)
  end.

Definition findAll (entity : string) (criteria : jsval) : async jsval :=
  let criteria := default_arg criteria empty_object in
  found ← getData entity criteria;
  mret (or_else found empty_array).

(** The callback of [find] in [updateRecord]. *)
Definition has_ui_code (ui_code record : jsval) : outcome bool :=
  mine ← get_prop record "ui_code";
  Ok (strict_eq mine ui_code).

(** [currentRecords.find(...)] with [recordIndex] set by the callback:
    the record found (or [undefined]) and its index (or [null]). *)
Definition find_record (currentRecords ui_code : jsval)
  : outcome (jsval * option nat) :=
  match currentRecords with
  | VArr elems _ =>
      hit ← find_elem (has_ui_code ui_code) 0 elems;
      Ok (match hit with
          | Some (index, record) => (record, Some index)
          | None => (VUndef, None)
          end)
  | _ => Err TypeError
  end.

(** [currentRecords[recordIndex] = currentData]: an index found by
    [find] is in range; the index [null] names the property ["null"]. *)
Definition store_at (currentRecords : jsval) (recordIndex : option nat)
    (currentData : jsval) : outcome jsval :=
  match recordIndex, currentRecords with
  | Some index, VArr elems props => Ok (VArr (<[index := currentData]> elems) props)
  | None, _ => put_field currentRecords "null" currentData
  | _, _ => Err TypeError
  end.

Definition updateRecord (entity : string) (newData : jsval) : async jsval :=
  let newData := default_arg newData empty_object in
  ui_code ← sync (get_prop newData "ui_code");
  if negb (truthy ui_code) then throw (ErrorObject "Record does not exists")
  else
    stored ← getData entity VUndef;
    let currentRecords := or_else stored empty_array in
    '(currentData, recordIndex) ← sync (find_record currentRecords ui_code);
    let currentData := spread currentData newData in
    currentRecords ← sync (store_at currentRecords recordIndex currentData);
    persistData entity currentRecords.

Definition deleteRecord (entity : string) (ui_code : jsval) : async jsval :=
  if negb (truthy ui_code) then throw (ThrownString "Record does not exists")
  else
    stored ← getData entity VUndef;
    let currentRecords := or_else stored empty_array in
    currentRecords ← sync (Array_filter currentRecords (fun record =>
      mine ← get_prop record "ui_code";
      Ok (negb (strict_eq mine ui_code))));
    persistData entity currentRecords.

Definition initEntity (rnds : entropy) (entity : string) : async jsval :=
  addRecord rnds entity empty_array.

Definition removeEntity (entity : string) : async jsval :=
  _ ← AsyncStorage_removeItem (getEntityName entity false);
  mret (VBool true).

Definition clearEntity (entity : string) : async jsval :=
  persistData entity empty_array.

Definition setStoreKey (entity key : string) (value : jsval) : partial jsval :=
  currentStore ← await (getStore entity);
  currentStore ← update (assign currentStore key value);
  _ ← await (setStore entity currentStore);
  mret currentStore.

Definition removeStoreKey (entity key : string) : partial jsval :=
  currentStore ← await (getStore entity);
  currentStore ← update (assign currentStore key VNull);
  currentStore ← update (delete_prop currentStore key);
  _ ← await (setStore entity currentStore);
  mret currentStore.

Definition findOneBy (entity : string) (criteria : jsval) : async jsval :=
  let criteria := default_arg criteria empty_object in
  found ← findAll entity criteria;
  sync (first_of found).

Definition showEntities : async (list string) := AsyncStorage_getAllKeys.

(** [entities.includes(entity)] on the array of key strings. *)
Definition entityExists (entity : string) : async jsval :=
  entities ← showEntities;
  mret (VBool (bool_decide (entity ∈ entities))).

End Service.
End StorageService.

(** ** SessionService *)

Module SessionService.
Section Service.

Variable setItem_reply : reply.

Definition SESSION_STORE : string := "session".

(** The instance: its only field is the cached session. *)
Record service := { session : jsval }.

(** [new SessionService()]: the field initialiser is [session = null]. *)
Definition new : service := {| session := VNull |}.

(** A method that awaits the backend: the outcome, the instance and the
    backend afterwards. *)
Definition method (A : Type) : Type := service → backend → outcome A * service * backend.

Definition read : method jsval := fun this b =>
  match StorageService.getStore SESSION_STORE b with
  | (Ok store, b') => (Ok store, {| session := store |}, b')
  | (Err e, b') => (Err e, this, b')
  end.

Definition initialize (defaultSession : jsval) : method jsval := fun this b =>
  let defaultSession := default_arg defaultSession empty_object in
  match read this b with
  | (Ok store, this, b) =>
      if negb (truthy store) then
        match StorageService.initStore setItem_reply SESSION_STORE defaultSession b with
        | (Ok store, b') => (Ok (VBool true), {| session := store |}, b')
        | (Err e, b') => (Err e, this, b')
        end
      else (Ok (VBool true), {| session := store |}, b)
  | (Err e, this, b) => (Err e, this, b)
  end.

(** [get] is synchronous and reads the cache only. *)
Definition get (this : service) (key : string) (defaultValue : jsval) : outcome jsval :=
  let defaultValue := default_arg defaultValue VNull in
  cached ← get_prop (session this) key;
  Ok (or_else cached defaultValue).

Definition getAll (this : service) : jsval := session this.

(** A method that updates properties of stored values: [None] when an
    update leaves the value model. *)
Definition partial_method (A : Type) : Type :=
  service → backend → option (outcome A * service * backend).

Definition write (key : string) (value : jsval) : partial_method jsval := fun this b =>
  match StorageService.setStoreKey setItem_reply SESSION_STORE key value b with
  | Some (Ok store, b') => Some (Ok store, {| session := store |}, b')
  | Some (Err e, b') => Some (Err e, this, b')
  | None => None
  end.

Definition writeAll (values : jsval) : method jsval := fun this b =>
  let values := default_arg values empty_object in
  let this := {| session := spread (session this) values |} in
  match StorageService.setStore setItem_reply SESSION_STORE (session this) b with
  | (result, b') => (result, this, b')
  end.

Definition remove (key : string) : partial_method jsval := fun this b =>
  match StorageService.removeStoreKey setItem_reply SESSION_STORE key b with
  | Some (Ok _, b') =>
      match delete_prop (session this) key with
      | Some (Ok cached) => Some (Ok cached, {| session := cached |}, b')
      | Some (Err e) => Some (Err e, this, b')
      | None => None
      end
  | Some (Err e, b') => Some (Err e, this, b')
  | None => None
  end.

Definition clear (newData : jsval) : method jsval := fun this b =>
  let newData := default_arg newData empty_object in
  let this := {| session := newData |} in
  match StorageService.setStore setItem_reply SESSION_STORE newData b with
  | (result, b') => (result, this, b')
  end.

End Service.
End SessionService.

(** ** Measures and predicates used by the proofs *)

(** The nesting depth of a document, to reason by induction on documents
    whose members sit in finite maps. *)
Fixpoint json_depth (j : json) : nat :=
  match j with
  | JArr elems => S (max_list (json_depth <$> elems))
  | JObj members =>
      S (map_fold (fun _ x deepest => json_depth x `max` deepest) 0%nat members)
  | _ => 0%nat
  end.

(** The collection key of an entity and the store key of a store. *)
Definition entity_key (entity : string) : string :=
  StorageService.getEntityName entity false.
Definition store_key (name : string) : string :=
  StorageService.getEntityName name true.

(** Reading the [ui_code] of a stored record and comparing it with
    [ui_code] yields [true], respectively [false], without throwing. *)
Definition carries (ui_code : jsval) (record : json) : Prop :=
  StorageService.has_ui_code ui_code (from_json record) = Ok true.
Definition lacks (ui_code : jsval) (record : json) : Prop :=
  StorageService.has_ui_code ui_code (from_json record) = Ok false.

(** A record on which property reads do not throw: after parsing, only
    [null] does. *)
Definition readable (record : json) : Prop := record ≠ JNull.

(** The field [name] of [record] can be read and is strictly equal to
    [wanted]. *)
Definition field_equals (record : jsval) (name : string) (wanted : jsval) : Prop :=
  ∃ mine, get_prop record name = Ok mine ∧ strict_eq mine wanted = true.

(** The criteria as the specification words them: every field named in
    the criteria is strictly equal to the criteria value. *)
Definition satisfies (criteria : gmap string jsval) (record : jsval) : Prop :=
  map_Forall (field_equals record) criteria.

#[global] Instance error_eq_dec : EqDecision error.
Proof. solve_decision. Defined.

#[global] Instance outcome_eq_dec `{EqDecision A} : EqDecision (outcome A).
Proof. solve_decision. Defined.

#[global] Instance carries_dec ui_code record : Decision (carries ui_code record).
Proof. unfold carries. apply _. Defined.

#[global] Instance field_equals_dec record name wanted :
  Decision (field_equals record name wanted).
Proof.
  unfold field_equals.
  destruct (get_prop record name) as [mine|e].
  - destruct (strict_eq mine wanted) eqn:Heq.
    + left. exists mine. split; [reflexivity|exact Heq].
    + right. intros (? & [= <-] & ?). congruence.
  - right. intros (? & ? & _). discriminate.
Defined.

#[global] Instance satisfies_dec criteria record : Decision (satisfies criteria record).
Proof. unfold satisfies. apply _. Defined.

(** The records of a collection as the service sees them: an absent
    collection counts as empty. *)
Definition stored_records (b : backend) (entity : string) : list json :=
  match b !! entity_key entity with
  | Some (JArr records) => records
  | _ => []
  end.

(** Criteria that require a value of every field they name: no criteria
    value is [undefined].  A record then meets an entry only through a
    property of its own: a field the record lacks reads as [undefined] or,
    when the name is one of a member inherited from the built-in
    prototypes ([constructor], [toString], ...), as that function or
    object of the runtime, and neither is strictly equal to a required
    value. *)
Definition requires_values (criteria : gmap string jsval) : Prop :=
  map_Forall (fun _ wanted => wanted ≠ VUndef) criteria.

(** The names of the members that every object inherits from
    [Object.prototype] (ECMAScript, Annex B included); the members of
    [Boolean.prototype] ([constructor], [toString], [valueOf]) are among
    them.  Reading one of these names on an object or a boolean that has
    no property of its own under it yields the inherited member, not
    [undefined]. *)
Definition Object_prototype_names : list string :=
  [ "constructor"; "hasOwnProperty"; "isPrototypeOf"; "propertyIsEnumerable";
    "toLocaleString"; "toString"; "valueOf"; "__proto__";
    "__defineGetter__"; "__defineSetter__"; "__lookupGetter__";
    "__lookupSetter__" ].

(** The first character of a string. *)
Definition head_char (s : string) : option Ascii.ascii :=
  match s with
  | String c _ => Some c
  | EmptyString => None
  end.

(** [reads c]: running [c] leaves the backend as it was.
    [touches key c]: running [c] leaves every key other than [key] as it
    was. *)
Definition reads {A} (c : async A) : Prop := ∀ b : backend, (c b).2 = b.
Definition touches {A} (key : string) (c : async A) : Prop :=
  ∀ (b : backend) (k : string), k ≠ key → (c b).2 !! k = b !! k.

(** * Properties *)

(** ** Documents and values *)

Lemma json_depth_elem elems x :
  x ∈ elems → (json_depth x < json_depth (JArr elems))%nat.
Proof.
  intros Hx. cbn. apply Nat.lt_succ_r, max_list_elem_of_le.
  by apply list_elem_of_fmap_2.
Qed.

Lemma json_depth_member members name x :
  members !! name = Some x → (json_depth x < json_depth (JObj members))%nat.
Proof.
  cbn. intros Hx. apply Nat.lt_succ_r. revert name x Hx.
  apply (map_fold_weak_ind (fun (deepest : nat) (m : gmap string json) =>
           ∀ (name : string) (x : json),
             m !! name = Some x → (json_depth x ≤ deepest)%nat)).
  - intros name x. by rewrite lookup_empty.
  - intros i y m deepest _ IH name x. rewrite lookup_insert.
    case_decide; intros Hx; simplify_eq; [lia|].
    specialize (IH _ _ Hx). lia.
Qed.

(** Induction on documents, with the hypothesis available for every
    element of an array and every member of an object. *)
Lemma json_nested_ind (P : json → Prop) :
  P JNull → (∀ b, P (JBool b)) → (∀ z, P (JNum z)) → (∀ s, P (JStr s)) →
  (∀ elems, Forall P elems → P (JArr elems)) →
  (∀ members, map_Forall (fun _ => P) members → P (JObj members)) →
  ∀ j, P j.
Proof.
  intros Hnull Hbool Hnum Hstr Harr Hobj j.
  remember (json_depth j) as d eqn:Hd.
  revert j Hd. induction (lt_wf d) as [d _ IH]. intros j ->.
  destruct j; auto.
  - apply Harr, Forall_forall. intros x Hx.
    eapply IH; [|reflexivity]. by apply json_depth_elem.
  - apply Hobj. intros name x Hx.
    eapply IH; [|reflexivity]. by eapply json_depth_member.
Qed.

(** Parsing a document and serialising the value gives the document
    back. *)
Lemma to_json_from_json j : to_json (from_json j) = j.
Proof.
  induction j as [| | | |elems IH|members IH] using json_nested_ind; cbn; try done.
  - f_equal. rewrite <- list_fmap_compose.
    induction IH; cbn; [done|]. by f_equal.
  - f_equal. apply map_eq. intros name.
    rewrite lookup_omap, lookup_fmap.
    destruct (members !! name) as [x|] eqn:Hx; cbn; [|done].
    rewrite (IH _ _ Hx). by destruct x.
Qed.

Lemma to_json_from_json_elems (js : list json) :
  to_json <$> (from_json <$> js) = js.
Proof.
  induction js as [|j js IH]; cbn; [done|].
  by rewrite to_json_from_json, IH.
Qed.

Lemma from_json_defined j : from_json j ≠ VUndef.
Proof. by destruct j. Qed.

(** Property reads throw on [undefined] and [null] only. *)
Lemma get_prop_defined v key :
  v ≠ VUndef → v ≠ VNull → ∃ x, get_prop v key = Ok x.
Proof.
  intros Hu Hn. destruct v; try done; cbn; eauto.
  - case_bool_decide; eauto. destruct (index_of _ _); eauto.
  - case_bool_decide; eauto. destruct (index_of _ _); eauto.
Qed.

Lemma get_prop_readable j key :
  readable j → ∃ x, get_prop (from_json j) key = Ok x.
Proof.
  intros Hj. apply get_prop_defined; [apply from_json_defined|].
  by destruct j.
Qed.

(** ** The callback-driven array methods on callbacks that do not throw *)

Lemma filter_elems_pure (P : jsval → Prop) `{!∀ x, Decision (P x)}
    (keep : jsval → outcome bool) (l : list jsval) :
  Forall (fun x => keep x = Ok (bool_decide (P x))) l →
  filter_elems keep l = Ok (filter P l).
Proof.
  induction 1 as [|x l Hx _ IH]; [done|].
  rewrite filter_cons. cbn [filter_elems]. rewrite Hx, IH. cbn.
  by destruct (decide (P x)); [rewrite bool_decide_eq_true_2|rewrite bool_decide_eq_false_2].
Qed.

Lemma find_elem_none (test : jsval → outcome bool) (i : nat) (l : list jsval) :
  Forall (fun x => test x = Ok false) l → find_elem test i l = Ok None.
Proof.
  intros Hl. revert i. induction Hl as [|x l Hx _ IH]; intros i; cbn; [done|].
  rewrite Hx. cbn. apply IH.
Qed.

Lemma find_elem_first (test : jsval → outcome bool) (i : nat) (before : list jsval) x after :
  Forall (fun y => test y = Ok false) before → test x = Ok true →
  find_elem test i (before ++ x :: after) = Ok (Some (i + length before, x))%nat.
Proof.
  intros Hb Hx. revert i. induction Hb as [|y l Hy _ IH]; intros i; cbn.
  - rewrite Hx. cbn. do 3 f_equal. lia.
  - rewrite Hy. cbn. rewrite IH. do 3 f_equal. lia.
Qed.

(** ** The backend steps *)

Lemma bind_ok {A B} (c : async A) (f : A → async B) a b b' :
  c b = (Ok a, b') → (c ≫= f) b = f a b'.
Proof. unfold mbind, async_bind. by intros ->. Qed.

Lemma getData_absent entity (b : backend) :
  b !! entity_key entity = None →
  StorageService.getData entity VUndef b = (Ok VNull, b).
Proof.
  intros Hb. unfold StorageService.getData. cbn.
  rewrite (bind_ok _ _ Null b b); [reflexivity|].
  unfold AsyncStorage_getItem. fold (entity_key entity). by rewrite Hb.
Qed.

Lemma getData_stored entity document (b : backend) :
  b !! entity_key entity = Some document →
  StorageService.getData entity VUndef b = (Ok (from_json document), b).
Proof.
  intros Hb. unfold StorageService.getData. cbn.
  rewrite (bind_ok _ _ (Text document) b b); [reflexivity|].
  unfold AsyncStorage_getItem. fold (entity_key entity). by rewrite Hb.
Qed.

Lemma persistData_array setItem_reply entity elems props (b : backend) :
  StorageService.persistData setItem_reply entity (VArr elems props) b
  = (Ok (VBool true), <[entity_key entity := JArr (to_json <$> elems)]> b).
Proof. reflexivity. Qed.

(** ** findAll on an absent collection *)

(** C1: when the collection of [entity] is absent from the backend,
    [findAll] does not return the empty sequence: for every criteria
    other than the literal [false] (every criteria mapping, and the
    default [{}] of an omitted argument) the promise is rejected with a
    [TypeError] and the backend is left as it was.  [getItem] resolves
    with [null], [JSON.parse(null)] is [null], the default [data = []] of
    [filterData] does not apply to [null], and [[...data]] throws. *)
Theorem findAll_absent_collection_rejects entity criteria (b : backend) :
  b !! entity_key entity = None →
  criteria ≠ VBool false →
  StorageService.findAll entity criteria b = (Err TypeError, b).
Proof.
  intros Hb Hcriteria.
  unfold StorageService.findAll, StorageService.getData.
  unfold mbind, async_bind, AsyncStorage_getItem. fold (entity_key entity).
  rewrite Hb.
  destruct criteria as [| |[]| | | |]; try done.
Qed.

Lemma findAll_absent_collection_rejects_todos :
  (∅ : backend) !! entity_key "todos" = None
  ∧ empty_object ≠ VBool false
  ∧ StorageService.findAll "todos" empty_object ∅ = (Err TypeError, ∅).
Proof.
  split; [reflexivity|]. split; [discriminate|].
  apply (findAll_absent_collection_rejects "todos" empty_object ∅);
    [reflexivity|discriminate].
Defined.

(** With the criteria [false] the filter is skipped and the fallback
    [|| []] of [findAll] applies. *)
Lemma findAll_absent_collection_unfiltered entity (b : backend) :
  b !! entity_key entity = None →
  StorageService.findAll entity (VBool false) b = (Ok empty_array, b).
Proof.
  intros Hb.
  unfold StorageService.findAll, StorageService.getData.
  unfold mbind, async_bind, AsyncStorage_getItem. fold (entity_key entity).
  by rewrite Hb.
Qed.

(** ** deleteRecord on an absent collection *)

(** C9: when the collection of [entity] is absent and [id] is non-empty
    (truthy), [getAll] answers [false] before the call, [deleteRecord]
    succeeds and writes the empty sequence under the entity's key, and
    [getAll] answers the empty sequence afterwards. *)
Theorem deleteRecord_absent_collection_creates
    setItem_reply entity id (b : backend) :
  b !! entity_key entity = None →
  truthy id = true →
  let b' := <[entity_key entity := JArr []]> b in
  StorageService.getAll entity b = (Ok (VBool false), b)
  ∧ StorageService.deleteRecord setItem_reply entity id b = (Ok (VBool true), b')
  ∧ StorageService.getAll entity b' = (Ok empty_array, b').
Proof.
  intros Hb Hid b'. repeat split.
  - unfold StorageService.getAll.
    by rewrite (bind_ok _ _ _ _ _ (getData_absent _ _ Hb)).
  - unfold StorageService.deleteRecord. rewrite Hid. cbn [negb].
    by rewrite (bind_ok _ _ _ _ _ (getData_absent _ _ Hb)).
  - unfold StorageService.getAll.
    assert (b' !! entity_key entity = Some (JArr [])) as Hb'
      by apply lookup_insert_eq.
    by rewrite (bind_ok _ _ _ _ _ (getData_stored _ _ _ Hb')).
Qed.

Lemma deleteRecord_absent_collection_creates_todos :
  let b' : backend := {[ entity_key "todos" := JArr [] ]} in
  StorageService.getAll "todos" ∅ = (Ok (VBool false), ∅)
  ∧ StorageService.deleteRecord Null "todos" (VStr "a") ∅ = (Ok (VBool true), b')
  ∧ StorageService.getAll "todos" b' = (Ok empty_array, b').
Proof.
  apply (deleteRecord_absent_collection_creates Null "todos" (VStr "a") ∅);
    reflexivity.
Defined.

(** ** initEntity *)

(** C7: after [initEntity] on an entity with no collection the persisted
    collection is not the empty sequence.  [initEntity] calls
    [addRecord(entity, [])], which sets [ui_code] on the array it was
    given and pushes that array as a record: the collection written is
    [[[]]], and [getAll] returns a sequence of length one. *)
Theorem initEntity_seeds_one_record setItem_reply rnds entity (b : backend) :
  b !! entity_key entity = None →
  let b' := <[entity_key entity := JArr [JArr []]]> b in
  StorageService.initEntity setItem_reply rnds entity b
  = (Ok (VArr [] {[ "ui_code" := VStr (uuid rnds) ]}), b')
  ∧ StorageService.getAll entity b' = (Ok (VArr [empty_array] ∅), b')
  ∧ StorageService.getAll entity b' ≠ (Ok empty_array, b').
Proof.
  intros Hb b'.
  assert (StorageService.getAll entity b' = (Ok (VArr [empty_array] ∅), b')) as Hall.
  { unfold StorageService.getAll.
    assert (b' !! entity_key entity = Some (JArr [JArr []])) as Hb'
      by apply lookup_insert_eq.
    by rewrite (bind_ok _ _ _ _ _ (getData_stored _ _ _ Hb')). }
  repeat split; [|done|by rewrite Hall].
  unfold StorageService.initEntity, StorageService.addRecord. cbn.
  unfold mbind at 1, async_bind at 1, sync at 1.
  by rewrite (bind_ok _ _ _ _ _ (getData_absent _ _ Hb)).
Qed.

Lemma initEntity_seeds_one_record_todos :
  let b' : backend := {[ entity_key "todos" := JArr [JArr []] ]} in
  StorageService.initEntity Null (fun _ => 0%N) "todos" ∅
  = (Ok (VArr [] {[ "ui_code" := VStr "00000000-0000-4000-8000-000000000000" ]}), b')
  ∧ StorageService.getAll "todos" b' = (Ok (VArr [empty_array] ∅), b')
  ∧ StorageService.getAll "todos" b' ≠ (Ok empty_array, b').
Proof.
  apply (initEntity_seeds_one_record Null (fun _ => 0%N) "todos" ∅).
  reflexivity.
Defined.

(** The sibling [clearEntity] writes the empty sequence. *)
Lemma clearEntity_empties setItem_reply entity (b : backend) :
  let b' := <[entity_key entity := JArr []]> b in
  StorageService.clearEntity setItem_reply entity b = (Ok (VBool true), b')
  ∧ StorageService.getAll entity b' = (Ok empty_array, b').
Proof.
  intros b'. split; [done|].
  unfold StorageService.getAll.
  assert (b' !! entity_key entity = Some (JArr [])) as Hb'
    by apply lookup_insert_eq.
  by rewrite (bind_ok _ _ _ _ _ (getData_stored _ _ _ Hb')).
Qed.

(** ** Stores *)

Lemma getStore_stored name document (b : backend) :
  b !! store_key name = Some document →
  StorageService.getStore name b = (Ok (from_json document), b).
Proof.
  intros Hb. unfold StorageService.getStore.
  unfold mbind, async_bind, AsyncStorage_getItem. fold (store_key name).
  by rewrite Hb.
Qed.

Lemma default_arg_defined x d : d ≠ VUndef → default_arg x d ≠ VUndef.
Proof. by destruct x. Qed.

Lemma JSON_stringify_defined v : v ≠ VUndef → JSON_stringify v = Some (to_json v).
Proof. by destruct v. Qed.

(** C8: under the backend contract in which [setItem] resolves with no
    value ([undefined]), [setStore] and [initStore] write the serialised
    value under the store's key and are then rejected with the
    [SyntaxError] of [JSON.parse(undefined)]; a subsequent [getStore]
    returns the value that was written, which for every value that is the
    reading of a JSON document is the value passed in. *)
Theorem setStore_rejects_after_writing name value (b : backend) :
  let written := default_arg value empty_object in
  let b' := <[store_key name := to_json written]> b in
  StorageService.setStore Undefined name value b = (Err SyntaxError, b')
  ∧ StorageService.initStore Undefined name value b = (Err SyntaxError, b')
  ∧ StorageService.getStore name b' = (Ok (from_json (to_json written)), b')
  ∧ (∀ document, value = from_json document →
       StorageService.getStore name b' = (Ok value, b')).
Proof.
  intros written b'.
  assert (JSON_stringify written = Some (to_json written)) as Hwritten
    by by apply JSON_stringify_defined, default_arg_defined.
  assert (StorageService.getStore name b' = (Ok (from_json (to_json written)), b'))
    as Hget by apply getStore_stored, lookup_insert_eq.
  repeat split.
  - unfold StorageService.setStore, mbind, async_bind,
      StorageService.AsyncStorage_setItem.
    fold written. by rewrite Hwritten.
  - unfold StorageService.initStore, mbind, async_bind,
      StorageService.AsyncStorage_setItem.
    fold written. by rewrite Hwritten.
  - done.
  - intros document ->. rewrite Hget. do 2 f_equal.
    assert (written = from_json document) as ->
      by (subst written; by destruct document).
    by rewrite to_json_from_json.
Qed.

(** Under a backend whose [setItem] resolves with [null] the same calls
    are fulfilled with [null]. *)
Lemma setStore_null_reply name value (b : backend) :
  let b' := <[store_key name := to_json (default_arg value empty_object)]> b in
  StorageService.setStore Null name value b = (Ok VNull, b').
Proof.
  intros b'. unfold StorageService.setStore, mbind, async_bind,
    StorageService.AsyncStorage_setItem.
  rewrite JSON_stringify_defined; [done|]. by apply default_arg_defined.
Qed.

(** ** The session cache *)

(** C10: as long as the session cache is [null], as it is on a fresh
    [SessionService] until [initialize] or [read] has loaded it, [get]
    throws a [TypeError] for every key and every default value instead of
    returning the default: it reads a property of the [null] cache. *)
Theorem get_on_null_cache_throws this key defaultValue :
  SessionService.session this = VNull →
  SessionService.get this key defaultValue = Err TypeError.
Proof.
  intros Hcache. unfold SessionService.get.
  rewrite Hcache. reflexivity.
Qed.

Lemma get_on_null_cache_throws_fresh :
  SessionService.session SessionService.new = VNull
  ∧ SessionService.get SessionService.new "token" (VStr "none") = Err TypeError.
Proof.
  split; [reflexivity|].
  apply (get_on_null_cache_throws SessionService.new "token" (VStr "none")).
  reflexivity.
Defined.

(** A [read] or [initialize] that is rejected before the store has been
    parsed leaves the cache as it was; [getStore] is the only step of
    [read] that can be rejected. *)
Lemma read_rejected_keeps_cache this e this' (b b' : backend) :
  SessionService.read this b = (Err e, this', b') → this' = this.
Proof.
  unfold SessionService.read.
  destruct (StorageService.getStore _ _) as [[store|e'] b'']; congruence.
Qed.

(** Once [read] has run, also on an absent store, the cache is no longer
    [null] and [get] falls back to the default value, for a key that
    does not name an inherited member. *)
Lemma get_after_read_absent key defaultValue this (b : backend) :
  b !! store_key SessionService.SESSION_STORE = None →
  key ∉ Object_prototype_names →
  ∃ this', SessionService.read this b = (Ok (VBool false), this', b)
           ∧ SessionService.get this' key defaultValue
             = Ok (default_arg defaultValue VNull).
Proof.
  intros Hb _. eexists. split.
  - unfold SessionService.read, StorageService.getStore.
    unfold mbind, async_bind, AsyncStorage_getItem.
    fold (store_key SessionService.SESSION_STORE). by rewrite Hb.
  - reflexivity.
Qed.

(** ** updateRecord *)

Lemma insert_at_length {A} (before : list A) (x y : A) (after : list A) :
  <[length before := y]> (before ++ x :: after) = before ++ y :: after.
Proof. induction before as [|z before IH]; cbn; [done|]. by f_equal. Qed.

Lemma lacks_parsed ui_code (js : list json) :
  Forall (lacks ui_code) js →
  Forall (fun record => StorageService.has_ui_code ui_code record = Ok false)
         (from_json <$> js).
Proof. intros Hjs. by apply Forall_fmap. Qed.

Lemma sync_bind {A B} (c : outcome A) (f : A → async B) (b : backend) :
  (sync c ≫= f) b = match c with
                    | Ok a => f a b
                    | Err e => (Err e, b)
                    end.
Proof. by destruct c. Qed.

(** C2: a patch whose [ui_code] is present but carried by no record of
    the collection does not make [updateRecord] fail.  The search finds
    nothing, the merged patch is assigned to the property ["null"] of the
    array, which [JSON.stringify] leaves out, and the call is fulfilled
    with [true] over an unchanged collection. *)
Theorem updateRecord_unknown_ui_code_succeeds
    setItem_reply entity js (newData : gmap string jsval) ui_code (b : backend) :
  b !! entity_key entity = Some (JArr js) →
  newData !! "ui_code" = Some ui_code →
  truthy ui_code = true →
  Forall (lacks ui_code) js →
  StorageService.updateRecord setItem_reply entity (VObj newData) b
  = (Ok (VBool true), b).
Proof.
  intros Hb Hcode Htruthy Hlacks. unfold StorageService.updateRecord.
  cbn [default_arg get_prop]. rewrite Hcode. cbn [default from_option id].
  rewrite sync_bind, Htruthy. cbn [negb].
  rewrite (bind_ok _ _ _ _ _ (getData_stored _ _ _ Hb)).
  change (or_else (from_json (JArr js)) empty_array)
    with (VArr (from_json <$> js) ∅).
  rewrite sync_bind. unfold StorageService.find_record.
  rewrite (find_elem_none _ _ _ (lacks_parsed _ _ Hlacks)).
  cbn [mbind outcome_bind]. 
  rewrite sync_bind. cbn [StorageService.store_at put_field].
  rewrite persistData_array.
  by rewrite to_json_from_json_elems, insert_id.
Qed.

Lemma updateRecord_unknown_ui_code_succeeds_todos :
  let b : backend :=
    {[ entity_key "todos" := JArr [JObj {[ "ui_code" := JStr "a" ]}] ]} in
  StorageService.updateRecord Null "todos"
    (VObj (<[ "ui_code" := VStr "b" ]> {[ "x" := VNum (Int 1) ]})) b
  = (Ok (VBool true), b).
Proof.
  apply (updateRecord_unknown_ui_code_succeeds Null "todos"
           [JObj {[ "ui_code" := JStr "a" ]}] _ (VStr "b"));
    [reflexivity|reflexivity|reflexivity|].
  repeat constructor.
Defined.

(** On an absent collection the same call creates the collection, empty. *)
Lemma updateRecord_absent_collection
    setItem_reply entity (newData : gmap string jsval) ui_code (b : backend) :
  b !! entity_key entity = None →
  newData !! "ui_code" = Some ui_code →
  truthy ui_code = true →
  StorageService.updateRecord setItem_reply entity (VObj newData) b
  = (Ok (VBool true), <[entity_key entity := JArr []]> b).
Proof.
  intros Hb Hcode Htruthy. unfold StorageService.updateRecord.
  cbn [default_arg get_prop]. rewrite Hcode. cbn [default from_option id].
  rewrite sync_bind, Htruthy. cbn [negb].
  by rewrite (bind_ok _ _ _ _ _ (getData_absent _ _ Hb)).
Qed.

(** *** Names that are not array indices *)

Lemma pretty_N_go_head x s :
  head_char (pretty_N_go x s) = head_char s
  ∨ ∃ d, head_char (pretty_N_go x s) = Some (pretty_N_char d).
Proof.
  revert s. induction (N.lt_wf_0 x) as [x _ IH]. intros s.
  destruct (decide (x = 0%N)) as [->|Hx]; [by left|].
  rewrite pretty_N_go_step by lia. right.
  destruct (IH (x `div` 10)%N) with (s := String (pretty_N_char (x `mod` 10)) s)
    as [Hhead|Hhead]; [apply N.div_lt; lia| |done].
  rewrite Hhead. by eexists.
Qed.

Lemma pretty_nat_head (i : nat) :
  ∃ d, head_char (pretty i) = Some (pretty_N_char d).
Proof.
  unfold pretty, pretty_nat, pretty, pretty_N. case_decide.
  - by exists 0%N.
  - rewrite pretty_N_go_step by lia.
    destruct (pretty_N_go_head (N.of_nat i `div` 10)
                (String (pretty_N_char (N.of_nat i `mod` 10)) "")) as [Hhead|Hhead];
      [|done].
    rewrite Hhead. by eexists.
Qed.

(** A name that does not start with a digit is no index. *)
Lemma index_of_name key len :
  (∀ d, head_char key ≠ Some (pretty_N_char d)) → index_of key len = None.
Proof.
  intros Hkey. unfold index_of.
  destruct (list_find _ _) as [[i x]|] eqn:Hfind; [|done].
  apply list_find_Some in Hfind as (_ & <- & _).
  destruct (pretty_nat_head x) as [d Hd]. by destruct (Hkey d).
Qed.

Lemma index_of_ui_code len : index_of "ui_code" len = None.
Proof.
  apply index_of_name. intros d. unfold pretty_N_char.
  by repeat case_match.
Qed.

(** Only an object can carry a non-empty [ui_code]. *)
Lemma carries_object ui_code r :
  truthy ui_code = true → carries ui_code r →
  ∃ members mine, r = JObj members
                  ∧ members !! "ui_code" = Some mine
                  ∧ strict_eq (from_json mine) ui_code = true.
Proof.
  unfold carries, StorageService.has_ui_code. intros Htruthy Hr.
  destruct r as [| | | |elems|members]; cbn in Hr; try by destruct ui_code.
  - rewrite bool_decide_eq_false_2, index_of_ui_code in Hr by done.
    by destruct ui_code.
  - rewrite bool_decide_eq_false_2, index_of_ui_code in Hr by done.
    by destruct ui_code.
  - rewrite lookup_fmap in Hr.
    destruct (members !! "ui_code") as [mine|] eqn:Hmine; cbn in Hr.
    + exists members, mine. split_and!; [done..|congruence].
    + by destruct ui_code.
Qed.

(** C3: when [r] is the first record of the collection carrying the
    [ui_code] of the patch, [updateRecord] is fulfilled and persists the
    whole collection with [r] replaced by the merge of the patch over
    [r]; in the merge every field of the patch has the patch value and
    every other field reads as it does in [r]. *)
Theorem updateRecord_merges_patch
    setItem_reply entity before r after (newData : gmap string jsval) ui_code
    (b : backend) :
  b !! entity_key entity = Some (JArr (before ++ r :: after)) →
  newData !! "ui_code" = Some ui_code →
  truthy ui_code = true →
  Forall (lacks ui_code) before →
  carries ui_code r →
  let merged := spread (from_json r) (VObj newData) in
  StorageService.updateRecord setItem_reply entity (VObj newData) b
  = (Ok (VBool true),
     <[entity_key entity := JArr (before ++ to_json merged :: after)]> b)
  ∧ (∀ field value, newData !! field = Some value →
       get_prop merged field = Ok value)
  ∧ (∀ field, newData !! field = None →
       get_prop merged field = get_prop (from_json r) field).
Proof.
  intros Hb Hcode Htruthy Hlacks Hcarries merged. split_and!.
  - unfold StorageService.updateRecord.
    cbn [default_arg get_prop]. rewrite Hcode. cbn [default from_option id].
    rewrite sync_bind, Htruthy. cbn [negb].
    rewrite (bind_ok _ _ _ _ _ (getData_stored _ _ _ Hb)).
    change (or_else (from_json (JArr (before ++ r :: after))) empty_array)
      with (VArr (from_json <$> (before ++ r :: after)) ∅).
    rewrite sync_bind. unfold StorageService.find_record.
    rewrite fmap_app, fmap_cons.
    rewrite (find_elem_first _ _ _ _ _ (lacks_parsed _ _ Hlacks) Hcarries).
    cbn [mbind outcome_bind]. rewrite sync_bind.
    cbn [StorageService.store_at Nat.add]. rewrite insert_at_length.
    rewrite persistData_array. fold merged.
    by rewrite fmap_app, fmap_cons, !to_json_from_json_elems.
  - intros field value Hfield. subst merged. cbn.
    by rewrite (lookup_union_Some_l _ _ _ _ Hfield).
  - intros field Hfield. subst merged.
    destruct (carries_object _ _ Htruthy Hcarries) as (members & _ & -> & _).
    cbn. by rewrite lookup_union_r.
Qed.

(** The example of the specification: the record
    [{ui_code: "a", x: 1, y: 2}] patched with [{ui_code: "a", y: 5}]
    becomes [{ui_code: "a", x: 1, y: 5}]. *)
Lemma updateRecord_merges_patch_example :
  let r := JObj (<[ "ui_code" := JStr "a" ]> (<[ "x" := JNum 1 ]> {[ "y" := JNum 2 ]})) in
  let other := JObj {[ "ui_code" := JStr "b" ]} in
  let patch : gmap string jsval := <[ "ui_code" := VStr "a" ]> {[ "y" := VNum (Int 5) ]} in
  let patched :=
    JObj (<[ "ui_code" := JStr "a" ]> (<[ "x" := JNum 1 ]> {[ "y" := JNum 5 ]})) in
  StorageService.updateRecord Null "todos" (VObj patch)
    {[ entity_key "todos" := JArr [other; r] ]}
  = (Ok (VBool true), {[ entity_key "todos" := JArr [other; patched] ]}).
Proof.
  intros r other patch patched.
  pose proof (updateRecord_merges_patch Null "todos" [other] r [] patch (VStr "a")
                {[ entity_key "todos" := JArr [other; r] ]}) as Hupdate.
  destruct Hupdate as [Hupdate _];
    [reflexivity|reflexivity|reflexivity|by repeat constructor|reflexivity|].
  rewrite Hupdate. vm_compute. reflexivity.
Defined.

(** ** addRecord *)

Lemma uuid_length rnds : String.length (uuid rnds) = 36%nat.
Proof. reflexivity. Qed.

Lemma getAll_stored_array entity records (b : backend) :
  b !! entity_key entity = Some (JArr records) →
  StorageService.getAll entity b = (Ok (VArr (from_json <$> records) ∅), b).
Proof.
  intros Hb. unfold StorageService.getAll.
  by rewrite (bind_ok _ _ _ _ _ (getData_stored _ _ _ Hb)).
Qed.

(** What [addRecord] reads back as the current collection. *)
Lemma getData_or_empty entity (b : backend) :
  b !! entity_key entity = None
  ∨ (∃ records, b !! entity_key entity = Some (JArr records)) →
  ∃ stored,
    StorageService.getData entity VUndef b = (Ok stored, b)
    ∧ or_else stored empty_array = VArr (from_json <$> stored_records b entity) ∅.
Proof.
  unfold stored_records. intros [Hb|[records Hb]]; rewrite Hb.
  - exists VNull. by rewrite getData_absent.
  - exists (from_json (JArr records)). by rewrite (getData_stored _ _ _ Hb).
Qed.

(** C4, as the code has it: on a collection that is absent or an array,
    [addRecord] returns the input record with [ui_code] set to the UUID
    string the generator produced, which is present and non-empty (36
    characters); every other field is as in the input.  The returned
    record is appended to the collection, an absent collection counting
    as empty, and the collection is persisted: [getAll] afterwards
    returns the former records followed by the stored form of the new
    one.  The generated [ui_code] is not compared with the ones already
    in the collection. *)
Theorem addRecord_appends_generated_ui_code
    setItem_reply rnds entity (data : gmap string jsval) (b : backend) :
  b !! entity_key entity = None
  ∨ (∃ records, b !! entity_key entity = Some (JArr records)) →
  let record := VObj (<["ui_code" := VStr (uuid rnds)]> data) in
  let b' := <[entity_key entity :=
                JArr (stored_records b entity ++ [to_json record])]> b in
  StorageService.addRecord setItem_reply rnds entity (VObj data) b = (Ok record, b')
  ∧ get_prop record "ui_code" = Ok (VStr (uuid rnds))
  ∧ String.length (uuid rnds) = 36%nat
  ∧ (∀ field, field ≠ "ui_code" →
       get_prop record field = get_prop (VObj data) field)
  ∧ StorageService.getAll entity b'
    = (Ok (VArr ((from_json <$> stored_records b entity)
                 ++ [from_json (to_json record)]) ∅), b').
Proof.
  intros Hb record b'. split_and!.
  - destruct (getData_or_empty _ _ Hb) as (stored & Hstored & Hrecords).
    unfold StorageService.addRecord. cbn [default_arg put_field].
    rewrite sync_bind. fold record.
    rewrite (bind_ok _ _ _ _ _ Hstored), Hrecords.
    rewrite sync_bind. cbn [Array_push].
    unfold mbind, async_bind. rewrite persistData_array.
    by rewrite fmap_app, to_json_from_json_elems.
  - subst record. cbn. by rewrite lookup_insert_eq.
  - apply uuid_length.
  - intros field Hfield. subst record. cbn. by rewrite lookup_insert_ne.
  - erewrite getAll_stored_array by apply lookup_insert_eq.
    by rewrite fmap_app.
Qed.

Lemma addRecord_appends_generated_ui_code_todos :
  let record :=
    VObj (<[ "ui_code" := VStr "00000000-0000-4000-8000-000000000000" ]>
            {[ "title" := VStr "buy milk" ]}) in
  let b' : backend := {[ entity_key "todos" := JArr [to_json record] ]} in
  StorageService.addRecord Null (fun _ => 0%N) "todos"
    (VObj {[ "title" := VStr "buy milk" ]}) ∅ = (Ok record, b')
  ∧ StorageService.getAll "todos" b' = (Ok (VArr [record] ∅), b').
Proof.
  destruct (addRecord_appends_generated_ui_code Null (fun _ => 0%N) "todos"
              {[ "title" := VStr "buy milk" ]} ∅) as (Hadd & _ & _ & _ & Hall);
    [by left|].
  split; [exact Hadd|exact Hall].
Defined.

(** C4, as stated, fails: the generator can produce a [ui_code] that a
    record of the collection already carries.  With the random bytes all
    zero the UUID is [00000000-0000-4000-8000-000000000000]; on a
    collection holding a record with that [ui_code], [addRecord] returns
    a record with the same [ui_code] and persists both. *)
Lemma addRecord_ui_code_collision :
  let code := "00000000-0000-4000-8000-000000000000" in
  let existing := JObj {[ "ui_code" := JStr code ]} in
  let b : backend := {[ entity_key "todos" := JArr [existing] ]} in
  ∃ record,
    StorageService.addRecord Null (fun _ => 0%N) "todos" empty_object b
    = (Ok record, {[ entity_key "todos" := JArr [existing; existing] ]})
    ∧ get_prop record "ui_code" = Ok (VStr code)
    ∧ get_prop (from_json existing) "ui_code" = Ok (VStr code).
Proof.
  eexists. split_and!; [vm_compute; reflexivity|reflexivity|reflexivity].
Qed.

(** ** findAll *)

(** The loop over the criteria keys computes a conjunction when no read
    throws. *)
Lemma forEach_conjunction record criteria (mine wanted : string → jsval)
    (keys : list string) (isValid : bool) :
  (∀ key, get_prop record key = Ok (mine key)) →
  (∀ key, get_prop criteria key = Ok (wanted key)) →
  forEach (fun isValid key =>
             mine ← get_prop record key;
             wanted ← get_prop criteria key;
             Ok (if negb (strict_eq mine wanted) then false else isValid))
          isValid keys
  = Ok (isValid && forallb (fun key => strict_eq (mine key) (wanted key)) keys).
Proof.
  intros Hmine Hwanted. revert isValid.
  induction keys as [|key keys IH]; intros isValid; cbn.
  - by rewrite andb_true_r.
  - rewrite Hmine, Hwanted. cbn. rewrite IH.
    by destruct (strict_eq (mine key) (wanted key)), isValid.
Qed.

Lemma forallb_map_to_list {A} (holds : string → bool) (P : string → A → Prop)
    (l : list (string * A)) :
  (∀ key x, (key, x) ∈ l → holds key = true ↔ P key x) →
  forallb holds l.*1 = true ↔ Forall (uncurry P) l.
Proof.
  induction l as [|[key x] l IH]; intros Hl; cbn.
  - split; [constructor|done].
  - rewrite andb_true_iff, Forall_cons, IH, (Hl key x); [done|left|].
    intros key' x' Hin. apply Hl. by right.
Qed.

(** On a record whose fields can be read, the callback of [filterData]
    decides [satisfies] (both read own properties). *)
Lemma record_matches_decides (criteria : gmap string jsval) record :
  record ≠ VUndef → record ≠ VNull →
  StorageService.record_matches (VObj criteria) (map_to_list criteria).*1 record
  = Ok (bool_decide (satisfies criteria record)).
Proof.
  intros Hundef Hnull.
  set (mine key := match get_prop record key with
                   | Ok x => x
                   | Err _ => VUndef
                   end).
  assert (∀ key, get_prop record key = Ok (mine key)) as Hmine.
  { intros key. unfold mine.
    by destruct (get_prop_defined record key Hundef Hnull) as [x ->]. }
  unfold StorageService.record_matches.
  rewrite (forEach_conjunction _ _ mine
             (fun key => default VUndef (criteria !! key))) by done.
  cbn [andb]. f_equal. symmetry.
  assert (forallb (fun key => strict_eq (mine key) (default VUndef (criteria !! key)))
                  (map_to_list criteria).*1 = true
          ↔ satisfies criteria record) as Hiff.
  { unfold satisfies. rewrite map_Forall_to_list.
    apply forallb_map_to_list. intros key x Hx.
    apply elem_of_map_to_list in Hx. rewrite Hx. cbn.
    unfold field_equals. rewrite Hmine. split; [by eauto|].
    by intros (? & [= <-] & ?). }
  destruct (forallb _ _).
  - by apply bool_decide_eq_true_2, Hiff.
  - apply bool_decide_eq_false_2. intros Hsat. by apply Hiff in Hsat.
Qed.


(** [findAll] on a stored array of readable records. *)
Lemma findAll_filters_by_criteria_parsed
    entity (criteria : gmap string jsval) records (b : backend) :
  b !! entity_key entity = Some (JArr records) →
  Forall readable records →
  ∃ found,
    StorageService.findAll entity (VObj criteria) b = (Ok (VArr found ∅), b)
    ∧ found = filter (satisfies criteria) (from_json <$> records).
Proof.
  intros Hb Hreadable. eexists. split; [|reflexivity].
  unfold StorageService.findAll, StorageService.getData.
  cbn [default_arg strict_eq negb].
  unfold mbind at 1 2, async_bind at 1 2, AsyncStorage_getItem.
  fold (entity_key entity). rewrite Hb. cbn [JSON_parse sync from_json].
  unfold StorageService.filterData. cbn.
  rewrite sync_bind. unfold sync, mret, async_ret. cbn.
  rewrite (filter_elems_pure (satisfies criteria)); [done|].
  apply Forall_fmap, Forall_forall. intros record Hrecord. cbn.
  apply record_matches_decides; [apply from_json_defined|].
  rewrite Forall_forall in Hreadable. specialize (Hreadable _ Hrecord).
  by destruct record.
Qed.

(** Under criteria that require values, a record that satisfies them
    holds every field they name as a property of its own, with a value
    other than [undefined]: no inherited member takes part in a match. *)
Lemma satisfies_own_fields (criteria : gmap string jsval) record key wanted :
  requires_values criteria →
  satisfies criteria record →
  criteria !! key = Some wanted →
  ∃ mine, get_prop record key = Ok mine ∧ mine ≠ VUndef.
Proof.
  intros Hvalues Hsatisfies Hkey.
  destruct (Hsatisfies key wanted Hkey) as (mine & Hmine & Hequal).
  exists mine. split; [done|]. intros ->.
  apply (Hvalues key wanted Hkey). by destruct wanted.
Qed.


(** When no record satisfies the criteria the result is the empty
    sequence. *)
Lemma findAll_no_match entity (criteria : gmap string jsval) records (b : backend) :
  b !! entity_key entity = Some (JArr records) →
  Forall readable records →
  Forall (fun record => ¬ satisfies criteria (from_json record)) records →
  StorageService.findAll entity (VObj criteria) b = (Ok empty_array, b).
Proof.
  intros Hb Hreadable Hnone.
  destruct (findAll_filters_by_criteria_parsed entity criteria records b Hb Hreadable)
    as [found [-> Hfound]].
  do 2 f_equal. rewrite Hfound. unfold empty_array. f_equal.
  clear Hb Hreadable Hfound.
  induction Hnone as [|record rest Hrecord _ IH]; [done|].
  by rewrite fmap_cons, filter_cons_False.
Qed.


(** ** deleteRecord *)

Lemma filter_fmap {A B} (f : A → B) (P : B → Prop) `{!∀ y, Decision (P y)}
    (l : list A) :
  filter P (f <$> l) = f <$> filter (P ∘ f) l.
Proof.
  induction l as [|x l IH]; [done|].
  rewrite fmap_cons, !filter_cons, IH. cbn. by destruct (decide (P (f x))).
Qed.

Lemma filter_all {A} (P : A → Prop) `{!∀ x, Decision (P x)} (l : list A) :
  Forall P l → filter P l = l.
Proof.
  induction 1 as [|x l Hx _ IH]; [done|].
  by rewrite filter_cons_True, IH.
Qed.

Lemma Forall_filter_self {A} (P : A → Prop) `{!∀ x, Decision (P x)} (l : list A) :
  Forall P (filter P l).
Proof. apply Forall_forall. by intros x [? _]%list_elem_of_filter. Qed.

Lemma Forall_filter_other {A} (P Q : A → Prop) `{!∀ x, Decision (P x)} (l : list A) :
  Forall Q l → Forall Q (filter P l).
Proof.
  rewrite !Forall_forall. intros Hl x [_ Hx]%list_elem_of_filter. by apply Hl.
Qed.

(** The callback of [filter] in [deleteRecord] keeps the records that do
    not carry [ui_code]. *)
Lemma deleteRecord_keeps ui_code record :
  readable record →
  (mine ← get_prop (from_json record) "ui_code";
   Ok (negb (strict_eq mine ui_code)))
  = Ok (bool_decide (¬ carries ui_code record)).
Proof.
  intros Hrecord.
  destruct (get_prop_readable record "ui_code" Hrecord) as [mine Hmine].
  assert (carries ui_code record ↔ strict_eq mine ui_code = true) as Hcarries.
  { unfold carries, StorageService.has_ui_code. rewrite Hmine. cbn.
    split; congruence. }
  rewrite Hmine. cbn. f_equal. symmetry.
  destruct (strict_eq mine ui_code).
  - apply bool_decide_eq_false_2. rewrite Hcarries. by intros [].
  - apply bool_decide_eq_true_2. by rewrite Hcarries.
Qed.

Lemma deleteRecord_stored setItem_reply entity records id (b : backend) :
  b !! entity_key entity = Some (JArr records) →
  Forall readable records →
  truthy id = true →
  StorageService.deleteRecord setItem_reply entity id b
  = (Ok (VBool true),
     <[entity_key entity :=
         JArr (filter (fun record => ¬ carries id record) records)]> b).
Proof.
  intros Hb Hreadable Hid. unfold StorageService.deleteRecord.
  rewrite Hid. cbn [negb].
  rewrite (bind_ok _ _ _ _ _ (getData_stored _ _ _ Hb)).
  change (or_else (from_json (JArr records)) empty_array)
    with (VArr (from_json <$> records) ∅).
  rewrite sync_bind. unfold Array_filter.
  rewrite (filter_elems_pure
             (fun record => ¬ carries id (to_json record))).
  - cbn [mbind outcome_bind]. rewrite persistData_array.
    rewrite filter_fmap, to_json_from_json_elems. do 3 f_equal.
    apply list_filter_iff. intros record. cbn.
    by rewrite to_json_from_json.
  - apply Forall_fmap, Forall_forall. intros record Hrecord. cbn.
    rewrite to_json_from_json. apply deleteRecord_keeps.
    rewrite Forall_forall in Hreadable. by apply Hreadable.
Qed.

(** C6: on an existing collection whose records can be read and for a
    non-empty (truthy) [id], [deleteRecord] is fulfilled and persists
    exactly the records that do not carry [id], in order; when no record
    carries [id] the backend is unchanged; and deleting the same [id]
    again changes nothing. *)
Theorem deleteRecord_removes_matching
    setItem_reply entity records id (b : backend) :
  b !! entity_key entity = Some (JArr records) →
  Forall readable records →
  truthy id = true →
  let kept := filter (fun record => ¬ carries id record) records in
  let b' := <[entity_key entity := JArr kept]> b in
  StorageService.deleteRecord setItem_reply entity id b = (Ok (VBool true), b')
  ∧ (Forall (fun record => ¬ carries id record) records → b' = b)
  ∧ StorageService.deleteRecord setItem_reply entity id b' = (Ok (VBool true), b').
Proof.
  intros Hb Hreadable Hid kept b'. split_and!.
  - by apply deleteRecord_stored.
  - intros Hnone. subst b' kept. rewrite filter_all by done.
    by apply insert_id.
  - rewrite (deleteRecord_stored _ _ kept) by
      (try apply lookup_insert_eq; try apply Forall_filter_other; done).
    subst b'. rewrite insert_insert_eq.
    by rewrite filter_all by apply Forall_filter_self.
Qed.

(** The scenario of the specification: deleting an [id] that one record
    carries removes that record, and a second delete is a no-op. *)
Lemma deleteRecord_removes_matching_todos :
  let a := JObj {[ "ui_code" := JStr "a" ]} in
  let c := JObj {[ "ui_code" := JStr "c" ]} in
  let b : backend := {[ entity_key "todos" := JArr [a; c] ]} in
  let b' : backend := {[ entity_key "todos" := JArr [c] ]} in
  StorageService.deleteRecord Null "todos" (VStr "a") b = (Ok (VBool true), b')
  ∧ StorageService.deleteRecord Null "todos" (VStr "a") b' = (Ok (VBool true), b').
Proof.
  intros a c b b'.
  destruct (deleteRecord_removes_matching Null "todos" [a; c] (VStr "a") b)
    as (Hfirst & _ & Hsecond);
    [reflexivity|repeat constructor; discriminate|reflexivity|].
  split; [exact Hfirst|exact Hsecond].
Defined.

(** * Further properties of the services *)

(** ** What an operation can change in the backend *)

Lemma reads_touches {A} key (c : async A) : reads c → touches key c.
Proof. intros Hc b k _. by rewrite Hc. Qed.

Lemma reads_bind {A B} (c : async A) (f : A → async B) :
  reads c → (∀ a, reads (f a)) → reads (c ≫= f).
Proof.
  intros Hc Hf b. unfold mbind, async_bind. specialize (Hc b).
  destruct (c b) as [[a|e] b']; cbn in *; subst; [apply Hf|done].
Qed.

Lemma touches_bind {A B} key (c : async A) (f : A → async B) :
  touches key c → (∀ a, touches key (f a)) → touches key (c ≫= f).
Proof.
  intros Hc Hf b k Hk. unfold mbind, async_bind. specialize (Hc b k Hk).
  destruct (c b) as [[a|e] b']; cbn in *; [|done].
  by rewrite Hf.
Qed.

Lemma reads_sync {A} (c : outcome A) : reads (sync c).
Proof. done. Qed.

Lemma reads_mret {A} (a : A) : reads (mret a : async A).
Proof. done. Qed.

Lemma reads_throw {A} e : reads (throw e : async A).
Proof. done. Qed.

Lemma reads_getItem key : reads (AsyncStorage_getItem key).
Proof. done. Qed.

Lemma touches_setItem setItem_reply key value :
  touches key (StorageService.AsyncStorage_setItem setItem_reply key value).
Proof.
  intros b k Hk. unfold StorageService.AsyncStorage_setItem.
  destruct value; cbn; [by rewrite lookup_insert_ne|done].
Qed.

Lemma touches_removeItem key : touches key (AsyncStorage_removeItem key).
Proof. intros b k Hk. cbn. by rewrite lookup_delete_ne. Qed.

Lemma reads_getData entity criteria : reads (StorageService.getData entity criteria).
Proof.
  unfold StorageService.getData. apply reads_bind; [apply reads_getItem|].
  intros data. case_match; [|apply reads_sync].
  apply reads_bind; [apply reads_sync|]. intros parsed. apply reads_sync.
Qed.

Lemma reads_findAll entity criteria : reads (StorageService.findAll entity criteria).
Proof.
  unfold StorageService.findAll. apply reads_bind; [apply reads_getData|].
  intros found. apply reads_mret.
Qed.

Lemma touches_persistData setItem_reply entity data :
  touches (entity_key entity) (StorageService.persistData setItem_reply entity data).
Proof.
  unfold StorageService.persistData. apply touches_bind; [apply touches_setItem|].
  intros _. apply reads_touches, reads_mret.
Qed.

Lemma reads_getStore name : reads (StorageService.getStore name).
Proof.
  unfold StorageService.getStore. apply reads_bind; [apply reads_getItem|].
  intros store. case_match; [apply reads_sync|apply reads_mret].
Qed.

(** X1: the operations that only query (getStore, getData, getAll,
    getById, findAll, findOneBy, showEntities, entityExists) leave the
    backend exactly as it was, whatever they return and also when they
    are rejected. *)
Theorem queries_leave_backend entity name criteria id :
  reads (StorageService.getStore name)
  ∧ reads (StorageService.getData entity criteria)
  ∧ reads (StorageService.getAll entity)
  ∧ reads (StorageService.getById entity id)
  ∧ reads (StorageService.findAll entity criteria)
  ∧ reads (StorageService.findOneBy entity criteria)
  ∧ reads StorageService.showEntities
  ∧ reads (StorageService.entityExists entity).
Proof.
  split_and!.
  - apply reads_getStore.
  - apply reads_getData.
  - unfold StorageService.getAll. apply reads_bind; [apply reads_getData|].
    intros records. case_match; apply reads_mret.
  - unfold StorageService.getById. apply reads_bind; [apply reads_getData|].
    intros response. repeat case_match; apply reads_mret.
  - apply reads_findAll.
  - unfold StorageService.findOneBy. apply reads_bind; [apply reads_findAll|].
    intros found. apply reads_sync.
  - done.
  - unfold StorageService.entityExists. apply reads_bind; [done|].
    intros entities. apply reads_mret.
Qed.

Lemma touches_addRecord setItem_reply rnds entity data :
  touches (entity_key entity)
    (StorageService.addRecord setItem_reply rnds entity data).
Proof.
  unfold StorageService.addRecord.
  apply touches_bind; [apply reads_touches, reads_sync|]. intros record.
  apply touches_bind; [apply reads_touches, reads_getData|]. intros stored.
  apply touches_bind; [apply reads_touches, reads_sync|]. intros records.
  apply touches_bind; [apply touches_persistData|]. intros _.
  apply reads_touches, reads_mret.
Qed.

Lemma touches_updateRecord setItem_reply entity newData :
  touches (entity_key entity)
    (StorageService.updateRecord setItem_reply entity newData).
Proof.
  unfold StorageService.updateRecord.
  apply touches_bind; [apply reads_touches, reads_sync|]. intros ui_code.
  case_match; [apply reads_touches, reads_throw|].
  apply touches_bind; [apply reads_touches, reads_getData|]. intros stored.
  apply touches_bind; [apply reads_touches, reads_sync|]. intros [current index].
  apply touches_bind; [apply reads_touches, reads_sync|]. intros records.
  apply touches_persistData.
Qed.

Lemma touches_deleteRecord setItem_reply entity id :
  touches (entity_key entity)
    (StorageService.deleteRecord setItem_reply entity id).
Proof.
  unfold StorageService.deleteRecord.
  case_match; [apply reads_touches, reads_throw|].
  apply touches_bind; [apply reads_touches, reads_getData|]. intros stored.
  apply touches_bind; [apply reads_touches, reads_sync|]. intros records.
  apply touches_persistData.
Qed.

Lemma touches_removeEntity entity :
  touches (entity_key entity) (StorageService.removeEntity entity).
Proof.
  unfold StorageService.removeEntity.
  apply touches_bind; [apply touches_removeItem|]. intros _.
  apply reads_touches, reads_mret.
Qed.

(** X2: every operation on the records of an entity (persistData,
    addRecord, updateRecord, deleteRecord, initEntity, clearEntity,
    removeEntity) changes at most the backend key of that entity, whatever
    its arguments and outcome. *)
Theorem entity_operations_touch_own_key
    setItem_reply rnds entity data newData id :
  let key := entity_key entity in
  touches key (StorageService.persistData setItem_reply entity data)
  ∧ touches key (StorageService.addRecord setItem_reply rnds entity data)
  ∧ touches key (StorageService.updateRecord setItem_reply entity newData)
  ∧ touches key (StorageService.deleteRecord setItem_reply entity id)
  ∧ touches key (StorageService.initEntity setItem_reply rnds entity)
  ∧ touches key (StorageService.clearEntity setItem_reply entity)
  ∧ touches key (StorageService.removeEntity entity).
Proof.
  intros key. split_and!.
  - apply touches_persistData.
  - apply touches_addRecord.
  - apply touches_updateRecord.
  - apply touches_deleteRecord.
  - unfold StorageService.initEntity. apply touches_addRecord.
  - unfold StorageService.clearEntity. apply touches_persistData.
  - apply touches_removeEntity.
Qed.

(** ** Stores and entities do not share keys *)

(** X3: the backend key determines the logical name and the kind: two
    names get the same key only when they are the same name of the same
    kind, so a store and an entity never share a key, whatever they are
    called. *)
Theorem getEntityName_separates name1 name2 (isStore1 isStore2 : bool) :
  StorageService.getEntityName name1 isStore1
  = StorageService.getEntityName name2 isStore2
  ↔ name1 = name2 ∧ isStore1 = isStore2.
Proof.
  split; [|by intros [-> ->]].
  unfold StorageService.getEntityName, StorageService.STORE_PREFIX,
    StorageService.ENTITY_PREFIX.
  destruct isStore1, isStore2; cbn; intros [= Heq];
    change (name1 = name2) in Heq; by subst.
Qed.

Lemma store_key_not_entity_key name entity : store_key name ≠ entity_key entity.
Proof.
  unfold store_key, entity_key, StorageService.getEntityName. cbn. discriminate.
Qed.

Lemma entity_key_inj entity other : entity_key entity = entity_key other → entity = other.
Proof.
  unfold entity_key, StorageService.getEntityName. cbn. intros [= Heq].
  exact Heq.
Qed.

Lemma store_key_inj name other : store_key name = store_key other → name = other.
Proof.
  unfold store_key, StorageService.getEntityName. cbn. intros [= Heq].
  exact Heq.
Qed.

(** What a query returns depends on its own key only. *)
Lemma getStore_same_key name (b1 b2 : backend) :
  b1 !! store_key name = b2 !! store_key name →
  (StorageService.getStore name b1).1 = (StorageService.getStore name b2).1.
Proof.
  intros Hkey. unfold StorageService.getStore, mbind, async_bind,
    AsyncStorage_getItem. fold (store_key name). rewrite Hkey.
  by destruct (b2 !! store_key name).
Qed.

Lemma getData_same_key entity criteria (b1 b2 : backend) :
  b1 !! entity_key entity = b2 !! entity_key entity →
  (StorageService.getData entity criteria b1).1
  = (StorageService.getData entity criteria b2).1.
Proof.
  intros Hkey. unfold StorageService.getData, mbind, async_bind,
    AsyncStorage_getItem. fold (entity_key entity). rewrite Hkey.
  case_match; [|done]. cbn.
  by destruct (JSON_parse _) as [parsed|]; cbn; [destruct (StorageService.filterData _ _)|].
Qed.

Lemma bind_same_result {A B} (c : async A) (f : A → async B) (b1 b2 : backend) :
  (c b1).1 = (c b2).1 → reads c → (∀ a, reads (f a)) →
  (∀ a b b', (f a b).1 = (f a b').1) →
  ((c ≫= f) b1).1 = ((c ≫= f) b2).1.
Proof.
  intros Hc Hreads Hf Hsame. unfold mbind, async_bind.
  pose proof (Hreads b1) as H1. pose proof (Hreads b2) as H2.
  destruct (c b1) as [[a1|e1] b1'], (c b2) as [[a2|e2] b2'];
    cbn in *; simplify_eq; [apply Hsame|done].
Qed.

Lemma getAll_same_key entity (b1 b2 : backend) :
  b1 !! entity_key entity = b2 !! entity_key entity →
  (StorageService.getAll entity b1).1 = (StorageService.getAll entity b2).1.
Proof.
  intros Hkey. unfold StorageService.getAll.
  apply bind_same_result; [by apply getData_same_key|apply reads_getData| |].
  - intros records. case_match; apply reads_mret.
  - intros records b b'. by case_match.
Qed.

Lemma findAll_same_key entity criteria (b1 b2 : backend) :
  b1 !! entity_key entity = b2 !! entity_key entity →
  (StorageService.findAll entity criteria b1).1
  = (StorageService.findAll entity criteria b2).1.
Proof.
  intros Hkey. unfold StorageService.findAll.
  apply bind_same_result; [by apply getData_same_key|apply reads_getData| |].
  - intros found. apply reads_mret.
  - done.
Qed.

(** X4: an operation on the records of one entity changes neither what
    [getStore] returns for any store nor what [getAll] and [findAll]
    return for any other entity. *)
Theorem entity_operations_isolated
    setItem_reply rnds entity data newData id (operation : async jsval)
    name other criteria (b : backend) :
  operation ∈ [ StorageService.persistData setItem_reply entity data;
                StorageService.addRecord setItem_reply rnds entity data;
                StorageService.updateRecord setItem_reply entity newData;
                StorageService.deleteRecord setItem_reply entity id;
                StorageService.initEntity setItem_reply rnds entity;
                StorageService.clearEntity setItem_reply entity;
                StorageService.removeEntity entity ] →
  other ≠ entity →
  let b' := (operation b).2 in
  (StorageService.getStore name b').1 = (StorageService.getStore name b).1
  ∧ (StorageService.getAll other b').1 = (StorageService.getAll other b).1
  ∧ (StorageService.findAll other criteria b').1
    = (StorageService.findAll other criteria b).1.
Proof.
  intros Hop Hother b'.
  assert (touches (entity_key entity) operation) as Htouch.
  { apply elem_of_cons in Hop as [->|Hop]; [apply touches_persistData|].
    apply elem_of_cons in Hop as [->|Hop]; [apply touches_addRecord|].
    apply elem_of_cons in Hop as [->|Hop]; [apply touches_updateRecord|].
    apply elem_of_cons in Hop as [->|Hop]; [apply touches_deleteRecord|].
    apply elem_of_cons in Hop as [->|Hop]; [apply touches_addRecord|].
    apply elem_of_cons in Hop as [->|Hop]; [apply touches_persistData|].
    apply elem_of_cons in Hop as [->|Hop]; [apply touches_removeEntity|].
    by apply elem_of_nil in Hop. }
  assert (entity_key other ≠ entity_key entity) as Hkey
    by (intros Heq; by apply entity_key_inj in Heq).
  split_and!.
  - apply getStore_same_key, Htouch, store_key_not_entity_key.
  - by apply getAll_same_key, Htouch.
  - by apply findAll_same_key, Htouch.
Qed.

Lemma entity_operations_isolated_todos :
  let b : backend :=
    <[ store_key "session" := JObj ∅ ]> {[ entity_key "notes" := JArr [JNum 1] ]} in
  let b' := (StorageService.clearEntity Null "todos" b).2 in
  (StorageService.getStore "session" b').1 = (StorageService.getStore "session" b).1
  ∧ (StorageService.getAll "notes" b').1 = (StorageService.getAll "notes" b).1
  ∧ (StorageService.findAll "notes" empty_object b').1
    = (StorageService.findAll "notes" empty_object b).1.
Proof.
  intros b.
  apply (entity_operations_isolated Null (fun _ => 0%N) "todos" VUndef VUndef VUndef
           (StorageService.clearEntity Null "todos") "session" "notes"
           empty_object b).
  - do 5 apply list_elem_of_further. apply list_elem_of_here.
  - discriminate.
Defined.

(** ** Stores *)

Lemma touches_setStore setItem_reply name value :
  touches (store_key name) (StorageService.setStore setItem_reply name value).
Proof.
  unfold StorageService.setStore. apply touches_bind; [apply touches_setItem|].
  intros store. apply reads_touches, reads_sync.
Qed.

Lemma touches_initStore setItem_reply name value :
  touches (store_key name) (StorageService.initStore setItem_reply name value).
Proof.
  unfold StorageService.initStore. apply touches_bind; [apply touches_setItem|].
  intros store. apply reads_touches, reads_sync.
Qed.

Lemma getStore_absent name (b : backend) :
  b !! store_key name = None →
  StorageService.getStore name b = (Ok (VBool false), b).
Proof.
  intros Hb. unfold StorageService.getStore.
  unfold mbind, async_bind, AsyncStorage_getItem. fold (store_key name).
  by rewrite Hb.
Qed.

(** What [setStore] does, for every reply of [setItem]. *)
Lemma setStore_writes setItem_reply name value (b : backend) :
  StorageService.setStore setItem_reply name value b
  = (JSON_parse setItem_reply,
     <[store_key name := to_json (default_arg value empty_object)]> b).
Proof.
  unfold StorageService.setStore, mbind, async_bind,
    StorageService.AsyncStorage_setItem.
  rewrite JSON_stringify_defined by by apply default_arg_defined.
  by destruct (JSON_parse setItem_reply).
Qed.

(** The steps of [setStoreKey] and [removeStoreKey]. *)
Lemma partial_bind_await {A B} (c : async A) (f : A → partial B) (b : backend) :
  (await c ≫= f) b = match c b with
                     | (Ok a, b') => f a b'
                     | (Err e, b') => Some (Err e, b')
                     end.
Proof. unfold mbind, partial_bind, await. by destruct (c b) as [[a|e] b']. Qed.

Lemma partial_bind_update {A B} (c : option (outcome A)) (f : A → partial B)
    (b : backend) :
  (update c ≫= f) b = match c with
                      | Some (Ok a) => f a b
                      | Some (Err e) => Some (Err e, b)
                      | None => None
                      end.
Proof. unfold mbind, partial_bind, update. by destruct c as [[a|e]|]. Qed.

(** Every store operation changes at most the key of its store. *)
Lemma touches_setStoreKey setItem_reply name key value (b : backend) r b' :
  StorageService.setStoreKey setItem_reply name key value b = Some (r, b') →
  ∀ k, k ≠ store_key name → b' !! k = b !! k.
Proof.
  unfold StorageService.setStoreKey. rewrite partial_bind_await.
  pose proof (reads_getStore name b) as Hread.
  destruct (StorageService.getStore name b) as [[store|e] b1]; cbn in Hread;
    subst b1; [|by intros [= _ ->]].
  rewrite partial_bind_update.
  destruct (assign store key value) as [[store'|e]|]; [|by intros [= _ ->]|done].
  rewrite partial_bind_await, setStore_writes.
  destruct (JSON_parse setItem_reply); intros [= _ <-] k Hk;
    by rewrite lookup_insert_ne.
Qed.

Lemma touches_removeStoreKey setItem_reply name key (b : backend) r b' :
  StorageService.removeStoreKey setItem_reply name key b = Some (r, b') →
  ∀ k, k ≠ store_key name → b' !! k = b !! k.
Proof.
  unfold StorageService.removeStoreKey. rewrite partial_bind_await.
  pose proof (reads_getStore name b) as Hread.
  destruct (StorageService.getStore name b) as [[store|e] b1]; cbn in Hread;
    subst b1; [|by intros [= _ ->]].
  rewrite partial_bind_update.
  destruct (assign store key VNull) as [[store'|e]|]; [|by intros [= _ ->]|done].
  rewrite partial_bind_update.
  destruct (delete_prop store' key) as [[store''|e]|]; [|by intros [= _ ->]|done].
  rewrite partial_bind_await, setStore_writes.
  destruct (JSON_parse setItem_reply); intros [= _ <-] k Hk;
    by rewrite lookup_insert_ne.
Qed.

(** X5: a store operation (setStore, initStore, removeStore, setStoreKey,
    removeStoreKey) changes neither what [getAll] and [findAll] return for
    any entity, also one of the same name, nor what [getStore] returns for
    any other store. *)
Theorem store_operations_isolated
    setItem_reply name key value entity criteria other (b b' : backend) :
  b' = (StorageService.setStore setItem_reply name value b).2
  ∨ b' = (StorageService.initStore setItem_reply name value b).2
  ∨ b' = (StorageService.removeStore name b).2
  ∨ (∃ r, StorageService.setStoreKey setItem_reply name key value b = Some (r, b'))
  ∨ (∃ r, StorageService.removeStoreKey setItem_reply name key b = Some (r, b')) →
  other ≠ name →
  (StorageService.getAll entity b').1 = (StorageService.getAll entity b).1
  ∧ (StorageService.findAll entity criteria b').1
    = (StorageService.findAll entity criteria b).1
  ∧ (StorageService.getStore other b').1 = (StorageService.getStore other b).1.
Proof.
  intros Hop Hother.
  assert (∀ k, k ≠ store_key name → b' !! k = b !! k) as Htouch.
  { destruct Hop as [->|[->|[->|[[r Hop]|[r Hop]]]]].
    - intros k. apply touches_setStore.
    - intros k. apply touches_initStore.
    - intros k. apply touches_removeItem.
    - by eapply touches_setStoreKey.
    - by eapply touches_removeStoreKey. }
  assert (entity_key entity ≠ store_key name) as Hentity
    by (intros Heq; by eapply store_key_not_entity_key).
  assert (store_key other ≠ store_key name) as Hstore
    by (intros Heq; by apply store_key_inj in Heq).
  split_and!.
  - by apply getAll_same_key, Htouch.
  - by apply findAll_same_key, Htouch.
  - by apply getStore_same_key, Htouch.
Qed.

Lemma store_operations_isolated_session :
  let b : backend := {[ entity_key "session" := JArr [JNum 1] ]} in
  let b' := (StorageService.setStore Null "session" empty_object b).2 in
  (StorageService.getAll "session" b').1 = (StorageService.getAll "session" b).1
  ∧ (StorageService.findAll "session" empty_object b').1
    = (StorageService.findAll "session" empty_object b).1
  ∧ (StorageService.getStore "prefs" b').1 = (StorageService.getStore "prefs" b).1.
Proof.
  intros b b'.
  apply (store_operations_isolated Null "session" "lang" empty_object "session"
           empty_object "prefs" b b').
  - by left.
  - discriminate.
Defined.

(** X6: [getStore] answers [false], not an error, for a store that is
    absent, and after [removeStore] the store is absent again: the key is
    gone from the backend and [getStore] answers [false]. *)
Theorem removeStore_then_getStore name (b : backend) :
  let b' := (StorageService.removeStore name b).2 in
  b' = delete (store_key name) b
  ∧ StorageService.getStore name b' = (Ok (VBool false), b')
  ∧ (b !! store_key name = None →
     StorageService.getStore name b = (Ok (VBool false), b)).
Proof.
  intros b'. split_and!; [done| |apply getStore_absent].
  apply getStore_absent. subst b'. cbn. apply lookup_delete_eq.
Qed.

(** X7: [setStore] and [initStore] replace the whole store by the
    serialised value, whatever the store held before ([initStore] does not
    look for an existing store); their outcome is [JSON.parse] of what
    [setItem] resolved with, so on a backend resolving [null] they are
    fulfilled with [null] and not with the stored value; [getStore]
    afterwards returns the parsed written document. *)
Theorem setStore_overwrites_whole_store setItem_reply name value (b : backend) :
  let written := default_arg value empty_object in
  let b' := <[store_key name := to_json written]> b in
  StorageService.setStore setItem_reply name value b = (JSON_parse setItem_reply, b')
  ∧ StorageService.initStore setItem_reply name value b = (JSON_parse setItem_reply, b')
  ∧ StorageService.setStore Null name value b = (Ok VNull, b')
  ∧ StorageService.getStore name b' = (Ok (from_json (to_json written)), b').
Proof.
  intros written b'. split_and!.
  - apply setStore_writes.
  - unfold StorageService.initStore, mbind, async_bind,
      StorageService.AsyncStorage_setItem.
    rewrite JSON_stringify_defined by by apply default_arg_defined.
    by destruct (JSON_parse setItem_reply).
  - apply setStore_writes.
  - apply getStore_stored, lookup_insert_eq.
Qed.

Lemma setStoreKey_absent setItem_reply name key value (b : backend) :
  b !! store_key name = None →
  key ≠ "__proto__" →
  StorageService.setStoreKey setItem_reply name key value b = Some (Err TypeError, b).
Proof.
  intros Hb Hkey. unfold StorageService.setStoreKey.
  rewrite partial_bind_await, (getStore_absent _ _ Hb), partial_bind_update.
  cbn. by rewrite bool_decide_eq_false_2.
Qed.

Lemma removeStoreKey_absent setItem_reply name key (b : backend) :
  b !! store_key name = None →
  key ≠ "__proto__" →
  StorageService.removeStoreKey setItem_reply name key b = Some (Err TypeError, b).
Proof.
  intros Hb Hkey. unfold StorageService.removeStoreKey.
  rewrite partial_bind_await, (getStore_absent _ _ Hb), partial_bind_update.
  cbn. by rewrite bool_decide_eq_false_2.
Qed.

(** X8: on a store that does not exist, [setStoreKey] and
    [removeStoreKey] are rejected with a [TypeError] (they assign a
    property of the [false] that [getStore] returned) and nothing is
    written. *)
Theorem setStoreKey_absent_store_rejects setItem_reply name key value (b : backend) :
  b !! store_key name = None →
  key ≠ "__proto__" →
  StorageService.setStoreKey setItem_reply name key value b = Some (Err TypeError, b)
  ∧ StorageService.removeStoreKey setItem_reply name key b = Some (Err TypeError, b).
Proof.
  intros Hb Hkey. split.
  - by apply setStoreKey_absent.
  - by apply removeStoreKey_absent.
Qed.

Lemma setStoreKey_absent_store_rejects_session :
  StorageService.setStoreKey Null "session" "lang" (VStr "fr") ∅
  = Some (Err TypeError, ∅)
  ∧ StorageService.removeStoreKey Null "session" "lang" ∅ = Some (Err TypeError, ∅).
Proof.
  apply (setStoreKey_absent_store_rejects Null "session" "lang" (VStr "fr") ∅);
    [reflexivity|discriminate].
Defined.

(** The document of an object read from the backend with one field
    set. *)
Lemma to_json_members (members : gmap string json) :
  omap (fun x => if is_undefined x then None else Some (to_json x))
       (from_json <$> members) = members.
Proof.
  pose proof (to_json_from_json (JObj members)) as Hmembers.
  cbn in Hmembers. by injection Hmembers.
Qed.

Lemma to_json_insert (members : gmap string json) key value :
  to_json (VObj (<[key := value]> (from_json <$> members)))
  = JObj (match JSON_stringify value with
          | Some document => <[key := document]> members
          | None => delete key members
          end).
Proof.
  cbn. rewrite omap_insert, to_json_members. by destruct value.
Qed.

Lemma setStoreKey_object setItem_reply name key value members (b : backend) :
  b !! store_key name = Some (JObj members) →
  key ≠ "__proto__" →
  StorageService.setStoreKey setItem_reply name key value b
  = Some (match JSON_parse setItem_reply with
          | Ok _ => Ok (VObj (<[key := value]> (from_json <$> members)))
          | Err e => Err e
          end,
          <[store_key name :=
              JObj (match JSON_stringify value with
                    | Some document => <[key := document]> members
                    | None => delete key members
                    end)]> b).
Proof.
  intros Hb Hkey. unfold StorageService.setStoreKey.
  rewrite partial_bind_await, (getStore_stored _ _ _ Hb), partial_bind_update.
  cbn [from_json assign]. rewrite bool_decide_eq_false_2 by done.
  rewrite partial_bind_await, setStore_writes.
  cbn [default_arg]. rewrite to_json_insert.
  by destruct (JSON_parse setItem_reply).
Qed.

Lemma removeStoreKey_object setItem_reply name key members (b : backend) :
  b !! store_key name = Some (JObj members) →
  key ≠ "__proto__" →
  StorageService.removeStoreKey setItem_reply name key b
  = Some (match JSON_parse setItem_reply with
          | Ok _ => Ok (VObj (delete key (from_json <$> members)))
          | Err e => Err e
          end, <[store_key name := JObj (delete key members)]> b).
Proof.
  intros Hb Hkey. unfold StorageService.removeStoreKey.
  rewrite partial_bind_await, (getStore_stored _ _ _ Hb), partial_bind_update.
  cbn [from_json assign]. rewrite bool_decide_eq_false_2 by done.
  rewrite partial_bind_update. cbn [delete_prop]. rewrite delete_insert_eq.
  rewrite partial_bind_await, setStore_writes. cbn [default_arg to_json].
  rewrite omap_delete, to_json_members.
  by destruct (JSON_parse setItem_reply).
Qed.

(** X9: on a store holding an object, [setStoreKey] writes the store back
    with the one field set to the serialised value (or without the field
    when the value is [undefined]) and every other field as it was; it
    returns the updated store when [setItem]'s reply parses and is
    rejected, after the write, when it does not. *)
Theorem setStoreKey_sets_one_field
    setItem_reply name key value members (b : backend) :
  b !! store_key name = Some (JObj members) →
  key ≠ "__proto__" →
  let updated := VObj (<[key := value]> (from_json <$> members)) in
  let persisted := match JSON_stringify value with
                   | Some document => <[key := document]> members
                   | None => delete key members
                   end in
  let b' := <[store_key name := JObj persisted]> b in
  StorageService.setStoreKey setItem_reply name key value b
  = Some (match JSON_parse setItem_reply with
          | Ok _ => Ok updated
          | Err e => Err e
          end, b')
  ∧ StorageService.getStore name b' = (Ok (VObj (from_json <$> persisted)), b')
  ∧ (∀ field, field ≠ key → persisted !! field = members !! field).
Proof.
  intros Hb Hkey updated persisted b'. split_and!.
  - by apply setStoreKey_object.
  - by rewrite (getStore_stored _ (JObj persisted)) by apply lookup_insert_eq.
  - intros field Hfield. subst persisted.
    destruct (JSON_stringify value);
      [by rewrite lookup_insert_ne|by rewrite lookup_delete_ne].
Qed.

(** X10: on a store holding an object, [removeStoreKey] writes the store
    back without the field and every other field as it was; removing a
    field the store does not have leaves the backend unchanged. *)
Theorem removeStoreKey_removes_one_field
    setItem_reply name key members (b : backend) :
  b !! store_key name = Some (JObj members) →
  key ≠ "__proto__" →
  let b' := <[store_key name := JObj (delete key members)]> b in
  StorageService.removeStoreKey setItem_reply name key b
  = Some (match JSON_parse setItem_reply with
          | Ok _ => Ok (VObj (delete key (from_json <$> members)))
          | Err e => Err e
          end, b')
  ∧ StorageService.getStore name b'
    = (Ok (VObj (from_json <$> delete key members)), b')
  ∧ (members !! key = None → b' = b).
Proof.
  intros Hb Hkey b'. split_and!.
  - by apply removeStoreKey_object.
  - by rewrite (getStore_stored _ (JObj (delete key members)))
      by apply lookup_insert_eq.
  - intros Hmissing. subst b'. rewrite delete_id by done. by apply insert_id.
Qed.

(** The scenario of the specification on a backend resolving [null]: the
    store [{lang: "en"}] with [lang] set to ["fr"] reads [{lang: "fr"}],
    and with [lang] removed reads [{}]. *)
Lemma setStoreKey_sets_one_field_session :
  let b : backend := {[ store_key "session" := JObj {[ "lang" := JStr "en" ]} ]} in
  let b' : backend := {[ store_key "session" := JObj {[ "lang" := JStr "fr" ]} ]} in
  StorageService.setStoreKey Null "session" "lang" (VStr "fr") b
  = Some (Ok (VObj {[ "lang" := VStr "fr" ]}), b')
  ∧ StorageService.getStore "session" b' = (Ok (VObj {[ "lang" := VStr "fr" ]}), b').
Proof.
  intros b b'.
  destruct (setStoreKey_sets_one_field Null "session" "lang" (VStr "fr")
              {[ "lang" := JStr "en" ]} b) as (Hset & Hget & _);
    [reflexivity|discriminate|].
  split; [exact Hset|exact Hget].
Defined.

Lemma removeStoreKey_removes_one_field_session :
  let b : backend := {[ store_key "session" := JObj {[ "lang" := JStr "fr" ]} ]} in
  let b' : backend := {[ store_key "session" := JObj ∅ ]} in
  StorageService.removeStoreKey Null "session" "lang" b = Some (Ok (VObj ∅), b')
  ∧ StorageService.getStore "session" b' = (Ok (VObj ∅), b').
Proof.
  intros b b'.
  destruct (removeStoreKey_removes_one_field Null "session" "lang"
              {[ "lang" := JStr "fr" ]} b) as (Hremove & Hget & _);
    [reflexivity|discriminate|].
  split; [exact Hremove|exact Hget].
Defined.

(** ** Looking records up *)

Lemma bind_err_step {A B} (c : async A) (f : A → async B) e (b b' : backend) :
  c b = (Err e, b') → (c ≫= f) b = (Err e, b').
Proof. unfold mbind, async_bind. by intros ->. Qed.



(** [getData] with criteria on a stored array of readable records. *)
Lemma getData_filters entity (criteria : gmap string jsval) records (b : backend) :
  b !! entity_key entity = Some (JArr records) →
  Forall readable records →
  StorageService.getData entity (VObj criteria) b
  = (Ok (VArr (filter (satisfies criteria) (from_json <$> records)) ∅), b).
Proof.
  intros Hb Hreadable. unfold StorageService.getData.
  cbn [default_arg strict_eq negb].
  unfold mbind at 1, async_bind at 1, AsyncStorage_getItem.
  fold (entity_key entity). rewrite Hb. rewrite sync_bind.
  cbn [JSON_parse from_json]. unfold StorageService.filterData, sync. cbn.
  rewrite (filter_elems_pure (satisfies criteria)); [done|].
  apply Forall_fmap, Forall_forall. intros record Hrecord. cbn.
  apply record_matches_decides; [apply from_json_defined|].
  rewrite Forall_forall in Hreadable. specialize (Hreadable _ Hrecord).
  by destruct record.
Qed.

(** [getData] with criteria on an absent collection. *)
Lemma getData_filters_absent entity (criteria : gmap string jsval) (b : backend) :
  b !! entity_key entity = None →
  StorageService.getData entity (VObj criteria) b = (Err TypeError, b).
Proof.
  intros Hb. unfold StorageService.getData.
  cbn [default_arg strict_eq negb].
  unfold mbind at 1, async_bind at 1, AsyncStorage_getItem.
  fold (entity_key entity). by rewrite Hb.
Qed.

(** The criteria [{ui_code: id}] select the records carrying [id]. *)
Lemma satisfies_ui_code id record :
  satisfies {[ "ui_code" := id ]} (from_json record) ↔ carries id record.
Proof.
  unfold satisfies, carries, field_equals, StorageService.has_ui_code.
  rewrite map_Forall_singleton. split.
  - by intros (mine & -> & Hmine); cbn; rewrite Hmine.
  - destruct (get_prop _ _) as [mine|]; cbn; [|done].
    intros [= Hmine]. by exists mine.
Qed.

Lemma filter_ui_code id (records : list json) :
  filter (satisfies {[ "ui_code" := id ]}) (from_json <$> records)
  = from_json <$> filter (carries id) records.
Proof.
  rewrite filter_fmap. f_equal. apply list_filter_iff.
  intros record. apply satisfies_ui_code.
Qed.

(** X11: on an existing collection of readable records, [getById] returns
    the first record carrying the identifier, in collection order, and
    [false] when no record carries it. *)
Theorem getById_first_carrier entity id records (b : backend) :
  b !! entity_key entity = Some (JArr records) →
  Forall readable records →
  StorageService.getById entity id b
  = (Ok (match filter (carries id) records with
         | record :: _ => from_json record
         | [] => VBool false
         end), b).
Proof.
  intros Hb Hreadable. unfold StorageService.getById.
  rewrite (bind_ok _ _ _ _ _ (getData_filters _ _ _ _ Hb Hreadable)).
  rewrite filter_ui_code. by destruct (filter (carries id) records).
Qed.

Lemma getById_first_carrier_todos :
  let a := JObj (<[ "ui_code" := JStr "a" ]> {[ "title" := JStr "buy milk" ]}) in
  let c := JObj {[ "ui_code" := JStr "c" ]} in
  let b : backend := {[ entity_key "todos" := JArr [c; a] ]} in
  StorageService.getById "todos" (VStr "a") b = (Ok (from_json a), b)
  ∧ StorageService.getById "todos" (VStr "z") b = (Ok (VBool false), b).
Proof.
  intros a c b. split.
  - apply (getById_first_carrier "todos" (VStr "a") [c; a] b);
      [reflexivity|repeat constructor; discriminate].
  - apply (getById_first_carrier "todos" (VStr "z") [c; a] b);
      [reflexivity|repeat constructor; discriminate].
Defined.



(** X13: on an entity whose collection is absent, [getById] and
    [findOneBy] are rejected with a [TypeError] instead of answering
    [false] or [undefined]: both filter, and the filter spreads the
    [null] that was read. *)
Theorem lookups_absent_collection_reject
    entity id (criteria : gmap string jsval) (b : backend) :
  b !! entity_key entity = None →
  StorageService.getById entity id b = (Err TypeError, b)
  ∧ StorageService.findOneBy entity (VObj criteria) b = (Err TypeError, b)
  ∧ StorageService.findOneBy entity VUndef b = (Err TypeError, b).
Proof.
  intros Hb.
  assert (∀ criteria : gmap string jsval,
            StorageService.findOneBy entity (VObj criteria) b = (Err TypeError, b))
    as Hfind.
  { intros criteria'.
    unfold StorageService.findOneBy, StorageService.findAll. cbn [default_arg].
    unfold mbind at 1, async_bind at 1.
    by rewrite (bind_err_step _ _ _ _ _ (getData_filters_absent _ criteria' _ Hb)). }
  split_and!; [|apply Hfind|apply (Hfind ∅)].
  unfold StorageService.getById.
  by rewrite (bind_err_step _ _ _ _ _ (getData_filters_absent _ _ _ Hb)).
Qed.

Lemma lookups_absent_collection_reject_todos :
  StorageService.getById "todos" (VStr "a") ∅ = (Err TypeError, ∅)
  ∧ StorageService.findOneBy "todos" empty_object ∅ = (Err TypeError, ∅)
  ∧ StorageService.findOneBy "todos" VUndef ∅ = (Err TypeError, ∅).
Proof.
  apply (lookups_absent_collection_reject "todos" (VStr "a") ∅ ∅). reflexivity.
Defined.

(** ** Adding, finding and deleting a record *)

(** [addRecord] on a collection that is absent or an array. *)
Lemma addRecord_stored setItem_reply rnds entity (data : gmap string jsval)
    (b : backend) :
  b !! entity_key entity = None
  ∨ (∃ records, b !! entity_key entity = Some (JArr records)) →
  let record := VObj (<["ui_code" := VStr (uuid rnds)]> data) in
  StorageService.addRecord setItem_reply rnds entity (VObj data) b
  = (Ok record,
     <[entity_key entity := JArr (stored_records b entity ++ [to_json record])]> b).
Proof.
  intros Hb record.
  destruct (getData_or_empty _ _ Hb) as (stored & Hstored & Hrecords).
  unfold StorageService.addRecord. cbn [default_arg put_field].
  rewrite sync_bind. fold record.
  rewrite (bind_ok _ _ _ _ _ Hstored), Hrecords.
  rewrite sync_bind. cbn [Array_push].
  unfold mbind, async_bind. rewrite persistData_array.
  by rewrite fmap_app, to_json_from_json_elems.
Qed.

(** The stored form of a new record carries the generated [ui_code]. *)
Lemma stored_record_carries (data : gmap string jsval) code :
  carries (VStr code) (to_json (VObj (<["ui_code" := VStr code]> data))).
Proof.
  unfold carries, StorageService.has_ui_code. cbn.
  rewrite omap_insert. cbn. rewrite fmap_insert, lookup_insert_eq. cbn.
  by rewrite bool_decide_eq_true_2.
Qed.

Lemma filter_none {A} (P : A → Prop) `{!∀ x, Decision (P x)} (l : list A) :
  Forall (fun x => ¬ P x) l → filter P l = [].
Proof.
  induction 1 as [|x l Hx _ IH]; [done|]. by rewrite filter_cons_False.
Qed.

(** X14: a record added with [addRecord] is found again by [getById]
    under the [ui_code] it was given, provided no record already in the
    collection carries that [ui_code]: [getById] returns the stored form
    of the returned record. *)
Theorem addRecord_then_getById
    setItem_reply rnds entity (data : gmap string jsval) (b : backend) :
  b !! entity_key entity = None
  ∨ (∃ records, b !! entity_key entity = Some (JArr records)) →
  Forall readable (stored_records b entity) →
  Forall (fun old => ¬ carries (VStr (uuid rnds)) old) (stored_records b entity) →
  let record := VObj (<["ui_code" := VStr (uuid rnds)]> data) in
  ∃ b', StorageService.addRecord setItem_reply rnds entity (VObj data) b
        = (Ok record, b')
        ∧ StorageService.getById entity (VStr (uuid rnds)) b'
          = (Ok (from_json (to_json record)), b').
Proof.
  intros Hb Hreadable Hfresh record.
  set (b' := <[entity_key entity :=
                 JArr (stored_records b entity ++ [to_json record])]> b).
  exists b'. split; [by apply addRecord_stored|].
  assert (StorageService.getData entity
            (VObj {[ "ui_code" := VStr (uuid rnds) ]}) b'
          = (Ok (VArr (filter (satisfies {[ "ui_code" := VStr (uuid rnds) ]})
                         (from_json <$> stored_records b entity ++ [to_json record]))
                   ∅), b')) as Hdata.
  { apply getData_filters; [apply lookup_insert_eq|].
    apply Forall_app. split; [done|]. by repeat constructor. }
  unfold StorageService.getById. rewrite (bind_ok _ _ _ _ _ Hdata).
  rewrite filter_ui_code, filter_app, (filter_none _ _ Hfresh).
  by rewrite filter_cons_True by apply stored_record_carries.
Qed.

(** The scenario of the specification: the record added to an empty
    backend is returned by [getById]. *)
Lemma addRecord_then_getById_todos :
  let record :=
    VObj (<[ "ui_code" := VStr "00000000-0000-4000-8000-000000000000" ]>
            {[ "title" := VStr "buy milk" ]}) in
  ∃ b', StorageService.addRecord Null (fun _ => 0%N) "todos"
          (VObj {[ "title" := VStr "buy milk" ]}) ∅ = (Ok record, b')
        ∧ StorageService.getById "todos"
            (VStr "00000000-0000-4000-8000-000000000000") b' = (Ok record, b').
Proof.
  destruct (addRecord_then_getById Null (fun _ => 0%N) "todos"
              {[ "title" := VStr "buy milk" ]} ∅) as (b' & Hadd & Hget);
    [by left|constructor|constructor|].
  exists b'. split; [exact Hadd|].
  etransitivity; [exact Hget|]. vm_compute. reflexivity.
Defined.

(** X15: after [deleteRecord] no record of the collection carries the
    identifier any more: [getById] answers [false] and [findAll] by that
    [ui_code] answers the empty sequence. *)
Theorem deleteRecord_then_getById setItem_reply entity records id (b : backend) :
  b !! entity_key entity = Some (JArr records) →
  Forall readable records →
  truthy id = true →
  let b' := (StorageService.deleteRecord setItem_reply entity id b).2 in
  StorageService.getById entity id b' = (Ok (VBool false), b')
  ∧ StorageService.findAll entity (VObj {[ "ui_code" := id ]}) b'
    = (Ok empty_array, b').
Proof.
  intros Hb Hreadable Hid b'. subst b'.
  rewrite (deleteRecord_stored _ _ _ _ _ Hb Hreadable Hid). cbn [snd].
  set (kept := filter (fun record => ¬ carries id record) records).
  set (b' := <[entity_key entity := JArr kept]> b).
  assert (b' !! entity_key entity = Some (JArr kept)) as Hb'
    by apply lookup_insert_eq.
  assert (Forall readable kept) as Hkept by by apply Forall_filter_other.
  assert (filter (carries id) kept = []) as Hnone.
  { apply filter_none. apply (Forall_filter_self (fun record => ¬ carries id record)). }
  split.
  - unfold StorageService.getById.
    rewrite (bind_ok _ _ _ _ _ (getData_filters _ _ _ _ Hb' Hkept)).
    by rewrite filter_ui_code, Hnone.
  - unfold StorageService.findAll. cbn [default_arg].
    rewrite (bind_ok _ _ _ _ _ (getData_filters _ _ _ _ Hb' Hkept)).
    by rewrite filter_ui_code, Hnone.
Qed.

Lemma deleteRecord_then_getById_todos :
  let a := JObj {[ "ui_code" := JStr "a" ]} in
  let c := JObj {[ "ui_code" := JStr "c" ]} in
  let b : backend := {[ entity_key "todos" := JArr [a; c] ]} in
  let b' := (StorageService.deleteRecord Null "todos" (VStr "a") b).2 in
  StorageService.getById "todos" (VStr "a") b' = (Ok (VBool false), b')
  ∧ StorageService.findAll "todos" (VObj {[ "ui_code" := VStr "a" ]}) b'
    = (Ok empty_array, b').
Proof.
  intros a c b.
  apply (deleteRecord_then_getById Null "todos" [a; c] (VStr "a") b);
    [reflexivity|repeat constructor; discriminate|reflexivity].
Defined.

(** ** Calls that are rejected before anything is written *)

(** X16: without an identifier nothing is written.  [deleteRecord] with
    an empty (falsy) identifier is rejected with the thrown string
    ['Record does not exists']; [updateRecord] with a patch whose
    [ui_code] is missing or empty, or with no patch at all, is rejected
    with an [Error] object of the same message.  The backend is left as it
    was. *)
Theorem missing_identifier_rejected
    setItem_reply entity (fields : gmap string jsval) id (b : backend) :
  truthy id = false →
  StorageService.deleteRecord setItem_reply entity id b
  = (Err (ThrownString "Record does not exists"), b)
  ∧ StorageService.updateRecord setItem_reply entity
      (VObj (<["ui_code" := id]> fields)) b
    = (Err (ErrorObject "Record does not exists"), b)
  ∧ StorageService.updateRecord setItem_reply entity
      (VObj (delete "ui_code" fields)) b
    = (Err (ErrorObject "Record does not exists"), b)
  ∧ StorageService.updateRecord setItem_reply entity VUndef b
    = (Err (ErrorObject "Record does not exists"), b).
Proof.
  intros Hid. split_and!.
  - unfold StorageService.deleteRecord. by rewrite Hid.
  - unfold StorageService.updateRecord. cbn [default_arg get_prop].
    rewrite lookup_insert_eq. cbn [default from_option Datatypes.id].
    by rewrite sync_bind, Hid.
  - unfold StorageService.updateRecord. cbn [default_arg get_prop].
    by rewrite lookup_delete_eq.
  - done.
Qed.

Lemma missing_identifier_rejected_todos :
  let b : backend := {[ entity_key "todos" := JArr [JObj {[ "ui_code" := JStr "a" ]}] ]} in
  StorageService.deleteRecord Null "todos" (VStr "") b
  = (Err (ThrownString "Record does not exists"), b)
  ∧ StorageService.updateRecord Null "todos"
      (VObj (<["ui_code" := VStr ""]> {[ "x" := VNum (Int 1) ]})) b
    = (Err (ErrorObject "Record does not exists"), b)
  ∧ StorageService.updateRecord Null "todos"
      (VObj (delete "ui_code" {[ "x" := VNum (Int 1) ]})) b
    = (Err (ErrorObject "Record does not exists"), b)
  ∧ StorageService.updateRecord Null "todos" VUndef b
    = (Err (ErrorObject "Record does not exists"), b).
Proof.
  intros b.
  apply (missing_identifier_rejected Null "todos" {[ "x" := VNum (Int 1) ]}
           (VStr "") b).
  reflexivity.
Defined.

(** X17: [addRecord] needs an object to put the [ui_code] on: with
    [null] or a boolean, number or string as the record it is rejected
    with a [TypeError] before the backend is read, and nothing is
    written. *)
Theorem addRecord_rejects_non_object setItem_reply rnds entity (b : backend) flag n s :
  StorageService.addRecord setItem_reply rnds entity VNull b = (Err TypeError, b)
  ∧ StorageService.addRecord setItem_reply rnds entity (VBool flag) b
    = (Err TypeError, b)
  ∧ StorageService.addRecord setItem_reply rnds entity (VNum n) b
    = (Err TypeError, b)
  ∧ StorageService.addRecord setItem_reply rnds entity (VStr s) b
    = (Err TypeError, b).
Proof.
  split_and!; unfold StorageService.addRecord; cbn [default_arg put_field];
    by rewrite sync_bind.
Qed.

(** X18: when the backend holds an object, not an array, under the key
    of an entity, [getAll] answers [false] and every other record
    operation (addRecord, updateRecord and deleteRecord with an
    identifier, findAll with criteria) is rejected with a [TypeError]
    without writing. *)
Theorem object_in_place_of_collection
    setItem_reply rnds entity members (data newData criteria : gmap string jsval)
    ui_code id (b : backend) :
  b !! entity_key entity = Some (JObj members) →
  newData !! "ui_code" = Some ui_code →
  truthy ui_code = true →
  truthy id = true →
  StorageService.getAll entity b = (Ok (VBool false), b)
  ∧ StorageService.addRecord setItem_reply rnds entity (VObj data) b
    = (Err TypeError, b)
  ∧ StorageService.updateRecord setItem_reply entity (VObj newData) b
    = (Err TypeError, b)
  ∧ StorageService.deleteRecord setItem_reply entity id b = (Err TypeError, b)
  ∧ StorageService.findAll entity (VObj criteria) b = (Err TypeError, b).
Proof.
  intros Hb Hcode Hui_code Hid.
  pose proof (getData_stored _ _ _ Hb) as Hdata. split_and!.
  - unfold StorageService.getAll. by rewrite (bind_ok _ _ _ _ _ Hdata).
  - unfold StorageService.addRecord. cbn [default_arg put_field].
    rewrite sync_bind. by rewrite (bind_ok _ _ _ _ _ Hdata).
  - unfold StorageService.updateRecord. cbn [default_arg get_prop].
    rewrite Hcode. cbn [default from_option Datatypes.id].
    rewrite sync_bind, Hui_code. cbn [negb].
    by rewrite (bind_ok _ _ _ _ _ Hdata).
  - unfold StorageService.deleteRecord. rewrite Hid. cbn [negb].
    by rewrite (bind_ok _ _ _ _ _ Hdata).
  - unfold StorageService.findAll, StorageService.getData.
    cbn [default_arg strict_eq negb].
    unfold mbind, async_bind, AsyncStorage_getItem.
    fold (entity_key entity). by rewrite Hb.
Qed.

Lemma object_in_place_of_collection_todos :
  let b : backend := {[ entity_key "todos" := JObj ∅ ]} in
  StorageService.getAll "todos" b = (Ok (VBool false), b)
  ∧ StorageService.addRecord Null (fun _ => 0%N) "todos" (VObj ∅) b
    = (Err TypeError, b)
  ∧ StorageService.updateRecord Null "todos" (VObj {[ "ui_code" := VStr "a" ]}) b
    = (Err TypeError, b)
  ∧ StorageService.deleteRecord Null "todos" (VStr "a") b = (Err TypeError, b)
  ∧ StorageService.findAll "todos" (VObj ∅) b = (Err TypeError, b).
Proof.
  intros b.
  apply (object_in_place_of_collection Null (fun _ => 0%N) "todos" ∅ ∅
           {[ "ui_code" := VStr "a" ]} ∅ (VStr "a") (VStr "a") b); reflexivity.
Defined.

(** ** Removing and clearing an entity *)

(** X19: [removeEntity] deletes the key of the entity, after which the
    entity is as if it never existed: [getAll] answers [false], and a
    following [addRecord] starts a collection holding the new record
    only. *)
Theorem removeEntity_then_absent
    setItem_reply rnds entity (data : gmap string jsval) (b : backend) :
  let b' := delete (entity_key entity) b in
  let record := VObj (<["ui_code" := VStr (uuid rnds)]> data) in
  StorageService.removeEntity entity b = (Ok (VBool true), b')
  ∧ StorageService.getAll entity b' = (Ok (VBool false), b')
  ∧ StorageService.addRecord setItem_reply rnds entity (VObj data) b'
    = (Ok record, <[entity_key entity := JArr [to_json record]]> b').
Proof.
  intros b' record.
  assert (b' !! entity_key entity = None) as Hb' by apply lookup_delete_eq.
  split_and!.
  - done.
  - unfold StorageService.getAll.
    by rewrite (bind_ok _ _ _ _ _ (getData_absent _ _ Hb')).
  - rewrite addRecord_stored by by left.
    unfold stored_records. by rewrite Hb'.
Qed.

(** X20: [clearEntity] writes the empty sequence whatever the key held,
    after which [getAll] and [findAll] (for every criteria mapping)
    return the empty sequence and [getById] answers [false]. *)
Theorem clearEntity_then_empty
    setItem_reply entity (criteria : gmap string jsval) id (b : backend) :
  let b' := <[entity_key entity := JArr []]> b in
  StorageService.clearEntity setItem_reply entity b = (Ok (VBool true), b')
  ∧ StorageService.getAll entity b' = (Ok empty_array, b')
  ∧ StorageService.findAll entity (VObj criteria) b' = (Ok empty_array, b')
  ∧ StorageService.getById entity id b' = (Ok (VBool false), b').
Proof.
  intros b'.
  assert (b' !! entity_key entity = Some (JArr [])) as Hb'
    by apply lookup_insert_eq.
  assert (∀ criteria : gmap string jsval,
            StorageService.getData entity (VObj criteria) b' = (Ok empty_array, b'))
    as Hdata by (intros criteria'; by rewrite (getData_filters _ _ [])).
  split_and!.
  - done.
  - by rewrite (getAll_stored_array _ []).
  - unfold StorageService.findAll. cbn [default_arg].
    by rewrite (bind_ok _ _ _ _ _ (Hdata criteria)).
  - unfold StorageService.getById. by rewrite (bind_ok _ _ _ _ _ (Hdata _)).
Qed.

(** ** Listing the keys *)

Lemma showEntities_lists_keys (b : backend) key :
  key ∈ (map_to_list b).*1 ↔ is_Some (b !! key).
Proof.
  rewrite list_elem_of_fmap. split.
  - intros ([k x] & -> & Hx). apply elem_of_map_to_list in Hx. by exists x.
  - intros [x Hx]. exists (key, x). split; [done|]. by apply elem_of_map_to_list.
Qed.

Lemma entity_key_not_raw entity : entity_key entity ≠ entity.
Proof.
  intros Heq. apply (f_equal String.length) in Heq.
  assert (String.length (entity_key entity) = (7 + String.length entity)%nat)
    as Hlength by reflexivity.
  lia.
Qed.

(** X21: [showEntities] lists exactly the backend keys in use, stores
    included, and [entityExists] looks its argument up among them as it
    is, without the entity prefix.  So writing the collection of an
    entity does not change what [entityExists] answers for the entity's
    name, and makes it answer [true] for the prefixed key. *)
Theorem entityExists_checks_raw_key setItem_reply entity (b : backend) :
  (∃ keys, StorageService.showEntities b = (Ok keys, b)
           ∧ ∀ key, key ∈ keys ↔ is_Some (b !! key))
  ∧ StorageService.entityExists entity b
    = (Ok (VBool (bool_decide (is_Some (b !! entity)))), b)
  ∧ let b' := (StorageService.clearEntity setItem_reply entity b).2 in
    (StorageService.entityExists entity b').1
    = (StorageService.entityExists entity b).1
    ∧ (StorageService.entityExists (entity_key entity) b').1 = Ok (VBool true).
Proof.
  assert (∀ name (b : backend),
            StorageService.entityExists name b
            = (Ok (VBool (bool_decide (is_Some (b !! name)))), b)) as Hexists.
  { intros name b0. unfold StorageService.entityExists,
      StorageService.showEntities, mbind, async_bind, AsyncStorage_getAllKeys.
    unfold mret, async_ret. do 3 f_equal.
    apply bool_decide_ext, showEntities_lists_keys. }
  split_and!.
  - eexists. split; [reflexivity|]. apply showEntities_lists_keys.
  - apply Hexists.
  - change (StorageService.clearEntity setItem_reply entity b).2
      with (<[entity_key entity := JArr []]> b).
    split.
    + rewrite !(Hexists entity). cbn [fst].
      by rewrite lookup_insert_ne by apply entity_key_not_raw.
    + rewrite Hexists. cbn [fst]. rewrite lookup_insert_eq.
      by rewrite bool_decide_eq_true_2.
Qed.

(** ** The session service *)

Lemma read_stored this document (b : backend) :
  b !! store_key SessionService.SESSION_STORE = Some document →
  SessionService.read this b
  = (Ok (from_json document), {| SessionService.session := from_json document |}, b).
Proof.
  intros Hb. unfold SessionService.read.
  by rewrite (getStore_stored _ _ _ Hb).
Qed.

Lemma read_absent this (b : backend) :
  b !! store_key SessionService.SESSION_STORE = None →
  SessionService.read this b
  = (Ok (VBool false), {| SessionService.session := VBool false |}, b).
Proof.
  intros Hb. unfold SessionService.read.
  by rewrite (getStore_absent _ _ Hb).
Qed.

Lemma initStore_writes setItem_reply name value (b : backend) :
  StorageService.initStore setItem_reply name value b
  = (JSON_parse setItem_reply,
     <[store_key name := to_json (default_arg value empty_object)]> b).
Proof.
  unfold StorageService.initStore, mbind, async_bind,
    StorageService.AsyncStorage_setItem.
  rewrite JSON_stringify_defined by by apply default_arg_defined.
  by destruct (JSON_parse setItem_reply).
Qed.

(** X22: when the session store exists and holds a truthy value (an
    object, as the service writes it), [initialize] loads it into the
    cache and is fulfilled with [true]; the default session is ignored and
    the backend is not written. *)
Theorem initialize_loads_existing_store
    setItem_reply defaultSession this document (b : backend) :
  b !! store_key SessionService.SESSION_STORE = Some document →
  truthy (from_json document) = true →
  SessionService.initialize setItem_reply defaultSession this b
  = (Ok (VBool true), {| SessionService.session := from_json document |}, b).
Proof.
  intros Hb Htruthy. unfold SessionService.initialize.
  rewrite (read_stored _ _ _ Hb). by rewrite Htruthy.
Qed.

Lemma initialize_loads_existing_store_session :
  let b : backend :=
    {[ store_key SessionService.SESSION_STORE := JObj {[ "lang" := JStr "en" ]} ]} in
  let loaded := {| SessionService.session := VObj {[ "lang" := VStr "en" ]} |} in
  SessionService.initialize Null (VObj {[ "lang" := VStr "fr" ]}) SessionService.new b
  = (Ok (VBool true), loaded, b)
  ∧ SessionService.get loaded "lang" VUndef = Ok (VStr "en").
Proof.
  intros b loaded. split; [|reflexivity].
  rewrite (initialize_loads_existing_store Null (VObj {[ "lang" := VStr "fr" ]})
             SessionService.new (JObj {[ "lang" := JStr "en" ]}) b);
    [vm_compute; reflexivity|reflexivity|reflexivity].
Defined.

(** X23: when the session store is absent, [initialize] writes the
    default session, and its cache is what [initStore] returned, not the
    default.  On a backend whose [setItem] resolves [null] it is fulfilled
    with [true] and leaves the cache [null], so [get] still throws; on a
    backend whose [setItem] resolves [undefined] it is rejected with a
    [SyntaxError] after the write, the cache is the [false] that [read]
    found, and [get] answers the default value for every key that does
    not name a member inherited from the built-in prototypes.  A
    following [read] loads what was written. *)
Theorem initialize_absent_store defaultSession this (b : backend) key defaultValue :
  b !! store_key SessionService.SESSION_STORE = None →
  let written := default_arg defaultSession empty_object in
  let b' := <[store_key SessionService.SESSION_STORE := to_json written]> b in
  let unloaded := {| SessionService.session := VNull |} in
  let missing := {| SessionService.session := VBool false |} in
  SessionService.initialize Null defaultSession this b = (Ok (VBool true), unloaded, b')
  ∧ SessionService.get unloaded key defaultValue = Err TypeError
  ∧ SessionService.initialize Undefined defaultSession this b
    = (Err SyntaxError, missing, b')
  ∧ (key ∉ Object_prototype_names →
     SessionService.get missing key defaultValue
     = Ok (default_arg defaultValue VNull))
  ∧ SessionService.read unloaded b'
    = (Ok (from_json (to_json written)),
       {| SessionService.session := from_json (to_json written) |}, b').
Proof.
  intros Hb written b' unloaded missing.
  assert (default_arg written empty_object = written) as Hdefault
    by (subst written; by destruct defaultSession).
  split_and!.
  - unfold SessionService.initialize. rewrite (read_absent _ _ Hb).
    cbn [truthy negb]. fold written. by rewrite initStore_writes, Hdefault.
  - done.
  - unfold SessionService.initialize. rewrite (read_absent _ _ Hb).
    cbn [truthy negb]. fold written. by rewrite initStore_writes, Hdefault.
  - done.
  - apply read_stored, lookup_insert_eq.
Qed.

Lemma initialize_absent_store_session :
  let b' : backend :=
    {[ store_key SessionService.SESSION_STORE := JObj {[ "lang" := JStr "en" ]} ]} in
  SessionService.initialize Null (VObj {[ "lang" := VStr "en" ]}) SessionService.new ∅
  = (Ok (VBool true), {| SessionService.session := VNull |}, b')
  ∧ SessionService.get {| SessionService.session := VNull |} "lang" VUndef
    = Err TypeError
  ∧ SessionService.initialize Undefined (VObj {[ "lang" := VStr "en" ]})
      SessionService.new ∅
    = (Err SyntaxError, {| SessionService.session := VBool false |}, b')
  ∧ SessionService.get {| SessionService.session := VBool false |} "lang"
      (VStr "en") = Ok (VStr "en").
Proof.
  destruct (initialize_absent_store (VObj {[ "lang" := VStr "en" ]})
              SessionService.new ∅ "lang" (VStr "en"))
    as (Hinit & _ & Hrejected & Hdefault & _); [reflexivity|].
  destruct (initialize_absent_store (VObj {[ "lang" := VStr "en" ]})
              SessionService.new ∅ "lang" VUndef) as (_ & Hget & _);
    [reflexivity|].
  split_and!; [exact Hinit|exact Hget|exact Hrejected|].
  apply Hdefault. apply (bool_decide_unpack _). vm_compute. exact I.
Defined.

(** X24: [writeAll] merges the values over the cache and overwrites the
    session store with the merge, without reading the store: whatever the
    store held is replaced.  The cache is replaced before the write is
    awaited, so it holds the merge also when the call is rejected.  In
    the merge a field of the values has the value given and every other
    field is the cached one; on a fresh service (cache [null]) the merge
    is the values alone. *)
Theorem writeAll_merges_over_cache setItem_reply values this (b : backend) :
  let given := default_arg values empty_object in
  let merged := spread (SessionService.session this) given in
  let b' := <[store_key SessionService.SESSION_STORE := to_json merged]> b in
  SessionService.writeAll setItem_reply values this b
  = (JSON_parse setItem_reply, {| SessionService.session := merged |}, b')
  ∧ (∀ key value, own_props given !! key = Some value →
       get_prop merged key = Ok value)
  ∧ (∀ key, own_props given !! key = None →
       get_prop merged key
       = Ok (default VUndef (own_props (SessionService.session this) !! key)))
  ∧ (SessionService.session this = VNull → merged = VObj (own_props given)).
Proof.
  intros given merged b'. split_and!.
  - unfold SessionService.writeAll. fold given. fold merged.
    rewrite setStore_writes.
    by replace (default_arg merged empty_object) with merged.
  - intros key value Hkey. subst merged. cbn.
    by rewrite (lookup_union_Some_l _ _ _ _ Hkey).
  - intros key Hkey. subst merged. cbn. by rewrite lookup_union_r.
  - intros Hcache. subst merged. unfold spread. rewrite Hcache. cbn.
    by rewrite (right_id_L ∅ (∪)).
Qed.

(** X25: [clear] replaces the cache by the new data and overwrites the
    session store with its document, whatever both held; a following
    [read] loads that document. *)
Theorem clear_replaces_session setItem_reply newData this other (b : backend) :
  let given := default_arg newData empty_object in
  let b' := <[store_key SessionService.SESSION_STORE := to_json given]> b in
  SessionService.clear setItem_reply newData this b
  = (JSON_parse setItem_reply, {| SessionService.session := given |}, b')
  ∧ SessionService.read other b'
    = (Ok (from_json (to_json given)),
       {| SessionService.session := from_json (to_json given) |}, b').
Proof.
  intros given b'. split.
  - unfold SessionService.clear. fold given. rewrite setStore_writes.
    replace (default_arg given empty_object) with given; [done|].
    subst given. by destruct newData.
  - apply read_stored, lookup_insert_eq.
Qed.

(** X26: on a session store holding an object, [write] sets the one
    field in the store and, when [setItem]'s reply parses (a backend
    resolving [null]), replaces the cache by the updated store, whatever
    the cache held.  On a backend resolving [undefined] the store is
    updated all the same but the call is rejected and the cache keeps its
    old value. *)
Theorem write_updates_store_then_cache key value members this (b : backend) :
  b !! store_key SessionService.SESSION_STORE = Some (JObj members) →
  key ≠ "__proto__" →
  let updated := VObj (<[key := value]> (from_json <$> members)) in
  let persisted := match JSON_stringify value with
                   | Some document => <[key := document]> members
                   | None => delete key members
                   end in
  let b' := <[store_key SessionService.SESSION_STORE := JObj persisted]> b in
  SessionService.write Null key value this b
  = Some (Ok updated, {| SessionService.session := updated |}, b')
  ∧ SessionService.write Undefined key value this b
    = Some (Err SyntaxError, this, b')
  ∧ SessionService.get {| SessionService.session := updated |} key VUndef
    = Ok (or_else value VNull).
Proof.
  intros Hb Hkey updated persisted b'. split_and!.
  - unfold SessionService.write.
    by rewrite (setStoreKey_object _ _ _ _ _ _ Hb Hkey).
  - unfold SessionService.write.
    by rewrite (setStoreKey_object _ _ _ _ _ _ Hb Hkey).
  - unfold SessionService.get. subst updated. cbn.
    by rewrite lookup_insert_eq.
Qed.

Lemma write_updates_store_then_cache_session :
  let b : backend :=
    {[ store_key SessionService.SESSION_STORE := JObj {[ "lang" := JStr "en" ]} ]} in
  let b' : backend :=
    {[ store_key SessionService.SESSION_STORE := JObj {[ "lang" := JStr "fr" ]} ]} in
  let updated := VObj {[ "lang" := VStr "fr" ]} in
  SessionService.write Null "lang" (VStr "fr") SessionService.new b
  = Some (Ok updated, {| SessionService.session := updated |}, b')
  ∧ SessionService.write Undefined "lang" (VStr "fr") SessionService.new b
    = Some (Err SyntaxError, SessionService.new, b').
Proof.
  intros b b' updated.
  destruct (write_updates_store_then_cache "lang" (VStr "fr")
              {[ "lang" := JStr "en" ]} SessionService.new b)
    as (Hnull & Hundefined & _); [reflexivity|discriminate|].
  split; [exact Hnull|exact Hundefined].
Defined.

(** X27: on an absent session store, [write] and [remove] are rejected
    with a [TypeError]; neither the cache nor the backend changes. *)
Theorem write_absent_store_rejects setItem_reply key value this (b : backend) :
  b !! store_key SessionService.SESSION_STORE = None →
  key ≠ "__proto__" →
  SessionService.write setItem_reply key value this b = Some (Err TypeError, this, b)
  ∧ SessionService.remove setItem_reply key this b = Some (Err TypeError, this, b).
Proof.
  intros Hb Hkey. split.
  - unfold SessionService.write. by rewrite (setStoreKey_absent _ _ _ _ _ Hb Hkey).
  - unfold SessionService.remove.
    by rewrite (removeStoreKey_absent _ _ _ _ Hb Hkey).
Qed.

Lemma write_absent_store_rejects_session :
  SessionService.write Null "lang" (VStr "fr") SessionService.new ∅
  = Some (Err TypeError, SessionService.new, ∅)
  ∧ SessionService.remove Null "lang" SessionService.new ∅
    = Some (Err TypeError, SessionService.new, ∅).
Proof.
  apply (write_absent_store_rejects Null "lang" (VStr "fr") SessionService.new ∅);
    [reflexivity|discriminate].
Defined.

(** X28: on a session store holding an object and a backend resolving
    [null], [remove] writes the store back without the field and drops
    the field from a cache that is an object, after which [get] answers
    the default for that key when it does not name a member inherited
    from [Object.prototype]; on a cache that is still [null] it is
    rejected with a [TypeError] after the store has been written. *)
Theorem remove_drops_field key members (fields : gmap string jsval) (b : backend) :
  b !! store_key SessionService.SESSION_STORE = Some (JObj members) →
  key ≠ "__proto__" →
  let b' := <[store_key SessionService.SESSION_STORE := JObj (delete key members)]> b in
  let cached := {| SessionService.session := VObj fields |} in
  let dropped := {| SessionService.session := VObj (delete key fields) |} in
  SessionService.remove Null key cached b
  = Some (Ok (VObj (delete key fields)), dropped, b')
  ∧ (key ∉ Object_prototype_names →
     SessionService.get dropped key VUndef = Ok VNull)
  ∧ SessionService.remove Null key SessionService.new b
    = Some (Err TypeError, SessionService.new, b').
Proof.
  intros Hb Hkey b' cached dropped. split_and!.
  - unfold SessionService.remove.
    by rewrite (removeStoreKey_object _ _ _ _ _ Hb Hkey).
  - intros _. unfold SessionService.get. cbn. by rewrite lookup_delete_eq.
  - unfold SessionService.remove.
    by rewrite (removeStoreKey_object _ _ _ _ _ Hb Hkey).
Qed.

Lemma remove_drops_field_session :
  let b : backend :=
    {[ store_key SessionService.SESSION_STORE := JObj {[ "lang" := JStr "fr" ]} ]} in
  let b' : backend := {[ store_key SessionService.SESSION_STORE := JObj ∅ ]} in
  SessionService.remove Null "lang"
    {| SessionService.session := VObj {[ "lang" := VStr "fr" ]} |} b
  = Some (Ok (VObj ∅), {| SessionService.session := VObj ∅ |}, b')
  ∧ SessionService.get {| SessionService.session := VObj ∅ |} "lang" VUndef
    = Ok VNull
  ∧ SessionService.remove Null "lang" SessionService.new b
    = Some (Err TypeError, SessionService.new, b').
Proof.
  intros b b'.
  destruct (remove_drops_field "lang" {[ "lang" := JStr "fr" ]}
              {[ "lang" := VStr "fr" ]} b) as (Hcached & Hget & Hfresh);
    [reflexivity|discriminate|].
  split_and!; [exact Hcached| |exact Hfresh].
  apply Hget. apply (bool_decide_unpack _). vm_compute. exact I.
Defined.
